(** * Code Tracker API: a shallow embedding of [app/main.py]

    The service stores snapshots of edited files in one table
    ([tracked_files]) and lists them by API key.  This development
    embeds the request handlers of [app/main.py], the ORM class of
    [app/models.py], the schemas of [app/schemas.py] and the session
    provider of [app/database.py], and proves the properties the
    specification states about them.

    Conventions.
    - A Python [str] is a sequence of Unicode code points: [list N].
    - A [datetime] is the microsecond count of its wall-clock fields
      since 0001-01-01T00:00:00 together with an optional UTC offset;
      arithmetic on it raises [OverflowError] outside the years 1..9999,
      as in CPython.
    - Code that may raise returns a [result]; code that works on the
      SQLAlchemy session runs in a state-and-exception monad [M].
    - The relational store is the list of committed rows in insertion
      order.  Its [DateTime] columns keep whole seconds, the comparison
      [==] of a string column with a parameter is exact code-point
      equality, and [ORDER BY ... DESC] keeps rows with equal keys in
      table order.  The statements by which a handler reads or writes
      rows are recorded, and each of them may fail; the ROLLBACK that
      ends a transaction touches no row, is taken to succeed and is not
      recorded. *)

From Stdlib Require Import String Ascii DecimalString.
From Stdlib Require Import List ZArith NArith Bool Lia.
From Stdlib Require Import Permutation Sorted.
From Equations Require Import Equations.
Import ListNotations.

(* ===================================================================== *)
(** * Python text *)
(* ===================================================================== *)

Module Text.

Definition char := N.
Definition str := list char.

(** [str.isspace] on one code point; the same set is matched by the
    pattern [\s] of [re] on a [str] and stripped by [str.strip()]. *)
Definition isspace (c : char) : bool :=
  ((9 <=? c) && (c <=? 13) ||
   (28 <=? c) && (c <=? 32) ||
   (c =? 133) || (c =? 160) || (c =? 5760) ||
   (8192 <=? c) && (c <=? 8202) ||
   (c =? 8232) || (c =? 8233) || (c =? 8239) || (c =? 8287) ||
   (c =? 12288))%N.

Definition space : char := 32%N.

(** A string literal of the source, code point by code point. *)
Fixpoint of_string (s : string) : str :=
  match s with
  | EmptyString => []
  | String a r => N_of_ascii a :: of_string r
  end.

(** [a == b] on two [str]. *)
Fixpoint str_eqb (a b : str) : bool :=
  match a, b with
  | [], [] => true
  | x :: a', y :: b' => (x =? y)%N && str_eqb a' b'
  | _, _ => false
  end.

(** [str(n)] for a non-negative [int]. *)
Definition str_of_nat (n : nat) : str :=
  of_string (NilEmpty.string_of_uint (Nat.to_uint n)).

(** [s.lstrip()] *)
Fixpoint lstrip (s : str) : str :=
  match s with
  | [] => []
  | c :: r => if isspace c then lstrip r else s
  end.

(** [s.rstrip()] *)
Definition rstrip (s : str) : str := rev (lstrip (rev s)).

(** [s.strip()] *)
Definition strip (s : str) : str := rstrip (lstrip s).

(** [re.sub(r"\s+", " ", raw)]: scanning from the left, every match of
    [\s+] (a whitespace character and, greedily, all whitespace that
    follows it) is replaced by one space; other characters are copied. *)
Equations? re_sub_ws (raw : str) : str by wf (length raw) lt :=
  re_sub_ws [] := [];
  re_sub_ws (c :: rest) with isspace c => {
    | true := space :: re_sub_ws (lstrip rest);
    | false := c :: re_sub_ws rest }.
Proof.
  assert (Hlen : forall s : str, length (lstrip s) <= length s).
  { induction s as [|a r IH]; simpl; [lia|].
    destruct (isspace a); simpl; lia. }
  specialize (Hlen rest). lia.
Qed.

(** Two whitespace characters next to each other somewhere in [s]. *)
Fixpoint adjacent_ws (s : str) : bool :=
  match s with
  | [] => false
  | a :: t =>
      match t with
      | [] => false
      | b :: _ => (isspace a && isspace b) || adjacent_ws t
      end
  end.

(** [s] starts (resp. ends) with a whitespace character. *)
Definition leading_ws (s : str) : bool :=
  match s with
  | [] => false
  | c :: _ => isspace c
  end.

Definition trailing_ws (s : str) : bool := leading_ws (rev s).

(** Every whitespace character of [s] is the space character. *)
Definition only_spaces (s : str) : Prop :=
  Forall (fun c => isspace c = true -> c = space) s.

(** [raw.split()]: the maximal runs of non-whitespace, in order.
    [cur] holds the characters of the run being read, last first. *)
Fixpoint split_from (cur : str) (s : str) : list str :=
  match s with
  | [] => match cur with [] => [] | _ => [rev cur] end
  | c :: r =>
      if isspace c
      then match cur with
           | [] => split_from [] r
           | _ => rev cur :: split_from [] r
           end
      else split_from (c :: cur) r
  end.

Definition split (s : str) : list str := split_from [] s.

(** [sep.join(parts)] *)
Fixpoint join (sep : str) (parts : list str) : str :=
  match parts with
  | [] => []
  | [p] => p
  | p :: ps => p ++ sep ++ join sep ps
  end.

End Text.

Import Text.

Open Scope Z_scope.

(* ===================================================================== *)
(** * Exceptions *)
(* ===================================================================== *)

(** The exceptions the handlers can meet.  [str(exc)] is the message. *)
Inductive Exception :=
| OverflowError (msg : str)          (* datetime arithmetic out of range *)
| OperationalError (msg : str)       (* sqlalchemy.exc: a fault of the store *)
| InvalidRequestError (msg : str).   (* sqlalchemy.exc: misuse of the session *)

Definition exc_str (exc : Exception) : str :=
  match exc with
  | OverflowError msg => msg
  | OperationalError msg => msg
  | InvalidRequestError msg => msg
  end.

(** [fastapi.HTTPException(status_code=..., detail=...)] *)
Record HTTPException := mkHTTPException { status_code : Z; detail : str }.

(** The outcome of code that may raise an [E]. *)
Inductive result (E A : Type) : Type :=
| Ok (a : A)
| Raise (e : E).
Arguments Ok {E A} a.
Arguments Raise {E A} e.

(* ===================================================================== *)
(** * Python datetimes *)
(* ===================================================================== *)

Module Datetime.

(** [ticks]: microseconds of the wall-clock fields since
    0001-01-01T00:00:00.  [tzinfo]: [None] for a naive value, the UTC
    offset in microseconds for an aware one. *)
Record datetime := mk { ticks : Z; tzinfo : option Z }.

(** [datetime.max] is 9999-12-31T23:59:59.999999, day 3652059. *)
Definition MAX_TICKS : Z := 3652059 * 86400 * 1000000 - 1.

(** [timedelta(seconds=n)], in microseconds. *)
Definition timedelta (seconds : Z) : Z := seconds * 1000000.

Definition in_range (t : Z) : bool := (0 <=? t) && (t <=? MAX_TICKS).

(** A value Python can hold: fields within [datetime.min, datetime.max],
    offset strictly between -24h and +24h. *)
Definition wf (d : datetime) : Prop :=
  0 <= ticks d <= MAX_TICKS /\
  match tzinfo d with
  | None => True
  | Some off => - timedelta 86400 < off < timedelta 86400
  end.

(** [d + delta] and [d - delta]: the offset is kept; a result outside
    the representable range raises. *)
Definition add (d : datetime) (delta : Z) : result Exception datetime :=
  let t := ticks d + delta in
  if in_range t then Ok (mk t (tzinfo d))
  else Raise (OverflowError (of_string "date value out of range")).

Definition sub (d : datetime) (delta : Z) : result Exception datetime :=
  add d (- delta).

(** [d.replace(tzinfo=tz)] *)
Definition replace_tzinfo (d : datetime) (tz : option Z) : datetime :=
  mk (ticks d) tz.

(** [d.astimezone(timezone.utc)] for an aware [d] of offset [offset]:
    [(d - offset).replace(tzinfo=timezone.utc)]. *)
Definition astimezone_utc (d : datetime) (offset : Z)
  : result Exception datetime :=
  match sub d offset with
  | Ok utc => Ok (replace_tzinfo utc (Some 0))
  | Raise e => Raise e
  end.

(** The instant a value denotes, as microseconds on the UTC axis; a naive
    value is read as UTC. *)
Definition utc_ticks (d : datetime) : Z :=
  match tzinfo d with
  | None => ticks d
  | Some off => ticks d - off
  end.

Definition naive (t : Z) : datetime := mk t None.

End Datetime.

Import Datetime.

(* ===================================================================== *)
(** * Schemas and the ORM class *)
(* ===================================================================== *)

(** [schemas.FileCreate]: the validated body of a create request. *)
Module FileCreate.
Record t := mk {
  fileName : str;
  filePath : str;
  fullContent : str;
  timestamp : datetime
}.
End FileCreate.

(** [models.TrackedFile].  [t] is an instance loaded from (or flushed to)
    the table [tracked_files]; the two [DateTime] columns carry no offset
    and hold the ticks of a naive datetime.  [transient] is an instance
    just built by the constructor: no [id], no [created_at] yet. *)
Module TrackedFile.
Record t := mk {
  id : Z;
  fileName : str;
  filePath : str;
  key : str;
  fullContent : str;
  timestamp : Z;
  created_at : Z
}.

Record transient := new {
  new_fileName : str;
  new_filePath : str;
  new_key : str;
  new_fullContent : str;
  new_timestamp : datetime
}.
End TrackedFile.

(** [schemas.FileResponse]; [model_validate] reads the attributes of an
    ORM instance ([from_attributes = True]).  There is no [key] field. *)
Module FileResponse.
Record t := mk {
  id : Z;
  fileName : str;
  filePath : str;
  fullContent : str;
  timestamp : datetime;
  created_at : datetime
}.

Definition model_validate (row : TrackedFile.t) : t :=
  mk (TrackedFile.id row)
     (TrackedFile.fileName row)
     (TrackedFile.filePath row)
     (TrackedFile.fullContent row)
     (naive (TrackedFile.timestamp row))
     (naive (TrackedFile.created_at row)).
End FileResponse.

(** What an endpoint function returns: the two envelopes of [schemas.py]
    with their status code, and the body of the health check. *)
Inductive Response :=
| FileResponseEnvelope (status : Z) (message : str) (data : FileResponse.t)
| FileListResponseEnvelope (status : Z) (message : str)
                           (data : list FileResponse.t)
| HealthResponse (status_text : str) (now : datetime).

Definition HTTP_200_OK : Z := 200.
Definition HTTP_201_CREATED : Z := 201.
Definition HTTP_401_UNAUTHORIZED : Z := 401.
Definition HTTP_500_INTERNAL_SERVER_ERROR : Z := 500.

(* ===================================================================== *)
(** * The store and the SQLAlchemy session *)
(* ===================================================================== *)

(** The round trips by which a handler reads or writes rows.  The
    ROLLBACK that ends a transaction is not among them. *)
Inductive StoreOp :=
| OpQuery      (* SELECT issued by [Query.first] / [Query.all] *)
| OpInsert     (* INSERT issued by the flush inside [commit] *)
| OpCommit     (* COMMIT *)
| OpRefresh.   (* SELECT by primary key issued by [refresh] *)

(** The database: the committed rows of [tracked_files] in insertion
    order, the AUTO_INCREMENT counter of [id], and the statements on rows
    ([StoreOp]) it has received so far. *)
Record Store := mkStore {
  table : list TrackedFile.t;
  next_id : Z;
  trace : list StoreOp
}.

(** The store after it has received the round trips [ops]. *)
Definition received (ops : list StoreOp) (st : Store) : Store :=
  mkStore (table st) (next_id st) (trace st ++ ops).

(** Every [id] in the table was handed out by the counter. *)
Definition store_ok (st : Store) : Prop :=
  Forall (fun row => TrackedFile.id row < next_id st) (table st).

(** What a request cannot control: which round trip fails (and with which
    cause), the clock read by [datetime.utcnow], and whether the MySQL
    server runs with [TIME_TRUNCATE_FRACTIONAL] in its [sql_mode]. *)
Record Env := mkEnv {
  fault : StoreOp -> option str;
  utcnow : Z;
  truncate_fractional : bool
}.

(** What a [DateTime] column keeps of a datetime.  [Column(DateTime)] of
    [models.py] is a MySQL [DATETIME] without fractional digits: the
    microseconds the driver sends are rounded to the nearest second, or
    cut off when the server truncates. *)
Definition to_column (env : Env) (t : Z) : Z :=
  if truncate_fractional env
  then t / 1000000 * 1000000
  else (t + 500000) / 1000000 * 1000000.

(** A datetime without microseconds. *)
Definition whole_second (t : Z) : Prop := t mod 1000000 = 0.

(** An instance attached to a session, known by its position in
    [objects]. *)
Inductive Obj :=
| Pending (o : TrackedFile.transient)   (* added, not flushed *)
| Persistent (pk : Z)                   (* flushed: a row with this [id] *)
| Expunged.                             (* dropped by a rollback *)

(** A [Session]: the database behind it, the instances it tracks, and the
    rows written in the open transaction. *)
Record Session := mkSession {
  store : Store;
  objects : list Obj;
  txn : list TrackedFile.t
}.

(** Code running on a session: the session is threaded through and an
    exception stops the rest. *)
Definition M (A : Type) : Type := Session -> Session * result Exception A.

Definition ret {A} (a : A) : M A := fun db => (db, Ok a).

Definition bind {A B} (c : M A) (k : A -> M B) : M B :=
  fun db =>
    match c db with
    | (db', Ok a) => k a db'
    | (db', Raise e) => (db', Raise e)
    end.

Definition lift {A} (r : result Exception A) : M A := fun db => (db, r).

Declare Scope session_scope.
Delimit Scope session_scope with session.
Notation "x <- c ;; k" := (bind c (fun x => k))
  (at level 61, c at next level, right associativity) : session_scope.
Notation "c ;;; k" := (bind c (fun _ => k))
  (at level 61, right associativity) : session_scope.

(** [ORDER BY col DESC]: insertion sort on a column, largest first;
    rows with the same value stay in the order they had. *)
Fixpoint insert_desc {A} (col : A -> Z) (x : A) (l : list A) : list A :=
  match l with
  | [] => [x]
  | y :: l' => if col y <=? col x then x :: l else y :: insert_desc col x l'
  end.

Fixpoint order_by_desc {A} (col : A -> Z) (l : list A) : list A :=
  match l with
  | [] => []
  | x :: l' => insert_desc col x (order_by_desc col l')
  end.

(** [b] may come after [a] in a listing by [col] descending. *)
Definition desc {A} (col : A -> Z) (a b : A) : Prop := col b <= col a.

(** [db.query(TrackedFile).filter(...).order_by(col.desc())] *)
Record Query := mkQuery {
  criteria : TrackedFile.t -> bool;
  order_col : TrackedFile.t -> Z
}.

Definition select (q : Query) (rows : list TrackedFile.t)
  : list TrackedFile.t :=
  order_by_desc (order_col q) (filter (criteria q) rows).

Section SessionOps.

Variable env : Env.

(** One round trip: it is recorded, and it raises when the store fails
    on it. *)
Definition execute (op : StoreOp) : M unit :=
  fun db =>
    let db' := mkSession (received [op] (store db)) (objects db) (txn db) in
    match fault env op with
    | Some cause => (db', Raise (OperationalError cause))
    | None => (db', Ok tt)
    end.

(** The rows a statement of this session sees. *)
Definition visible (db : Session) : list TrackedFile.t :=
  table (store db) ++ txn db.

(** [query.first()] and [query.all()] *)
Definition first (q : Query) : M (option TrackedFile.t) :=
  (execute OpQuery ;;;
   fun db => (db, Ok (hd_error (select q (visible db)))))%session.

Definition all (q : Query) : M (list TrackedFile.t) :=
  (execute OpQuery ;;;
   fun db => (db, Ok (select q (visible db))))%session.

(** [db.add(obj)]; the result is the reference to the instance. *)
Definition add (o : TrackedFile.transient) : M nat :=
  fun db =>
    (mkSession (store db) (objects db ++ [Pending o]) (txn db),
     Ok (length (objects db))).

(** INSERT of one instance: [id] comes from the counter, [created_at]
    from the column default [datetime.utcnow]; the two [DateTime] columns
    keep the whole seconds of what they are given. *)
Definition inserted (o : TrackedFile.transient) (st : Store)
  : TrackedFile.t :=
  TrackedFile.mk (next_id st)
    (TrackedFile.new_fileName o) (TrackedFile.new_filePath o)
    (TrackedFile.new_key o) (TrackedFile.new_fullContent o)
    (to_column env (ticks (TrackedFile.new_timestamp o)))
    (to_column env (utcnow env)).

Definition insert (o : TrackedFile.transient) : M Z :=
  (execute OpInsert ;;;
   fun db =>
     let st := store db in
     (mkSession (mkStore (table st) (next_id st + 1) (trace st))
                (objects db) (txn db ++ [inserted o st]),
      Ok (next_id st)))%session.

Fixpoint flush_objects (objs : list Obj) : M (list Obj) :=
  match objs with
  | [] => ret []
  | Pending o :: rest =>
      (pk <- insert o ;;
       rest' <- flush_objects rest ;;
       ret (Persistent pk :: rest'))%session
  | obj :: rest =>
      (rest' <- flush_objects rest ;;
       ret (obj :: rest'))%session
  end.

(** [db.flush()]: every pending instance is inserted; when an INSERT
    fails the transaction is undone before the exception goes on. *)
Definition flush : M unit :=
  fun db =>
    match flush_objects (objects db) db with
    | (db', Ok objs) => (mkSession (store db') objs (txn db'), Ok tt)
    | (db', Raise e) => (mkSession (store db') (objects db') [], Raise e)
    end.

(** [db.commit()]: flush, then COMMIT makes the rows of the transaction
    part of the table. *)
Definition commit : M unit :=
  (flush ;;;
   execute OpCommit ;;;
   fun db =>
     let st := store db in
     (mkSession (mkStore (table st ++ txn db) (next_id st) (trace st))
                (objects db) [],
      Ok tt))%session.

(** [db.refresh(obj)]: the row of a persistent instance is read again. *)
Definition refresh (ref : nat) : M TrackedFile.t :=
  fun db =>
    match nth_error (objects db) ref with
    | Some (Persistent pk) =>
        (execute OpRefresh ;;;
         fun db' =>
           match find (fun r => TrackedFile.id r =? pk) (visible db') with
           | Some row => (db', Ok row)
           | None =>
               (db', Raise (InvalidRequestError
                              (of_string "Could not refresh instance")))
           end)%session db
    | _ =>
        (db, Raise (InvalidRequestError
                      (of_string
                         "Instance is not persistent within this Session")))
    end.

End SessionOps.

(** [db.rollback()]: the open transaction is undone; pending instances and
    instances inserted in it leave the session.  The ROLLBACK it sends
    touches no row and is not recorded in [trace]. *)
Definition rollback (db : Session) : Session :=
  let undone := map TrackedFile.id (txn db) in
  let expunge (obj : Obj) :=
    match obj with
    | Pending _ => Expunged
    | Persistent pk => if existsb (Z.eqb pk) undone then Expunged else obj
    | Expunged => Expunged
    end in
  mkSession (store db) (map expunge (objects db)) [].

(** [database.get_db]: a fresh [SessionLocal()] per request, closed in the
    [finally] clause; closing gives up whatever was not committed (its
    ROLLBACK is not recorded in [trace] either). *)
Definition SessionLocal (st : Store) : Session := mkSession st [] [].

Definition close (db : Session) : Store := store db.

(* ===================================================================== *)
(** * The handlers of [main.py] *)
(* ===================================================================== *)

(** [compress_content] (lines 42-44). *)
Definition compress_content (raw : str) : str := strip (re_sub_ws raw).

(** Python truth value of a [str | None]: [None] and [""] are false. *)
Definition truthy (x : option str) : bool :=
  match x with
  | None => false
  | Some [] => false
  | Some (_ :: _) => true
  end.

(** The [HTTPException] of lines 50-53. *)
Definition missing_key : HTTPException :=
  mkHTTPException HTTP_401_UNAUTHORIZED (of_string "Missing x-api-key header").

(** [require_api_key] (lines 47-54). *)
Definition require_api_key (x_api_key : option str)
  : result HTTPException str :=
  if negb (truthy x_api_key) then Raise missing_key
  else match x_api_key with
       | Some k => Ok k
       | None => Raise missing_key
       end.

(** [normalize_timestamp] (lines 56-60). *)
Definition normalize_timestamp (dt : datetime) : result Exception datetime :=
  match tzinfo dt with
  | None => Ok dt
  | Some offset =>
      match astimezone_utc dt offset with
      | Ok utc => Ok (replace_tzinfo utc None)
      | Raise e => Raise e
      end
  end.

(** [col.between(lo, hi)]: SQL BETWEEN, both ends included. *)
Definition between (x lo hi : Z) : bool := (lo <=? x) && (x <=? hi).

(** The query of lines 105-113, before [.first()]. *)
Definition existing_query (fileName filePath : str)
           (window_start window_end : datetime) : Query :=
  mkQuery
    (fun row =>
       str_eqb (TrackedFile.fileName row) fileName &&
       str_eqb (TrackedFile.filePath row) filePath &&
       between (TrackedFile.timestamp row) (ticks window_start)
               (ticks window_end))
    TrackedFile.timestamp.

(** A stored snapshot that the duplicate lookup may return for the
    candidate [(fileName, filePath, normalized_ts)]. *)
Definition in_window (fileName filePath : str) (normalized_ts : datetime)
           (row : TrackedFile.t) : Prop :=
  TrackedFile.fileName row = fileName /\
  TrackedFile.filePath row = filePath /\
  ticks normalized_ts - timedelta 5 <= TrackedFile.timestamp row
    <= ticks normalized_ts + timedelta 5.

(** The instance lines 136-142 build, as a function of what goes in. *)
Definition new_tracked_file (payload : FileCreate.t) (api_key : str)
           (normalized_ts : datetime) : TrackedFile.transient :=
  TrackedFile.new (FileCreate.fileName payload)
                  (FileCreate.filePath payload)
                  api_key
                  (compress_content (FileCreate.fullContent payload))
                  normalized_ts.

(** The body of the [try] of [create_tracked_file] (lines 99-155).  The
    two logging calls have no effect on the session or the response. *)
Definition create_tracked_file_try (env : Env) (payload : FileCreate.t)
           (api_key : str) : M Response :=
  (let compressed_content :=
     compress_content (FileCreate.fullContent payload) in
   normalized_ts <- lift (normalize_timestamp (FileCreate.timestamp payload)) ;;
   window_start <- lift (Datetime.sub normalized_ts (timedelta 5)) ;;
   window_end <- lift (Datetime.add normalized_ts (timedelta 5)) ;;
   existing <- first env (existing_query (FileCreate.fileName payload)
                                         (FileCreate.filePath payload)
                                         window_start window_end) ;;
   match existing with
   | Some existing =>
       ret (FileResponseEnvelope HTTP_200_OK
              (of_string "File snapshot already stored")
              (FileResponse.model_validate existing))
   | None =>
       let tracked_file :=
         TrackedFile.new (FileCreate.fileName payload)
                         (FileCreate.filePath payload)
                         api_key
                         compressed_content
                         normalized_ts in
       ref <- add tracked_file ;;
       commit env ;;;
       row <- refresh env ref ;;
       ret (FileResponseEnvelope HTTP_201_CREATED
              (of_string "File snapshot created")
              (FileResponse.model_validate row))
   end)%session.

(** The [HTTPException] of lines 159-162 for the exception [exc]. *)
Definition failed_to_save (exc : Exception) : HTTPException :=
  mkHTTPException HTTP_500_INTERNAL_SERVER_ERROR
    (of_string "Failed to save file: " ++ exc_str exc).

(** [create_tracked_file] (lines 93-162): the [try] and its
    [except Exception] clause. *)
Definition create_tracked_file (env : Env) (payload : FileCreate.t)
           (db : Session) (api_key : str)
  : Session * result HTTPException Response :=
  match create_tracked_file_try env payload api_key db with
  | (db', Ok response) => (db', Ok response)
  | (db', Raise exc) => (rollback db', Raise (failed_to_save exc))
  end.

(** [health] (lines 165-167). *)
Definition health (env : Env) : Response :=
  HealthResponse (of_string "ok") (naive (utcnow env)).

(** [list_tracked_files] (lines 175-189). *)
Definition list_tracked_files (env : Env) (api_key : str) : M Response :=
  (rows <- all env (mkQuery (fun row => str_eqb (TrackedFile.key row) api_key)
                            TrackedFile.created_at) ;;
   let data := map FileResponse.model_validate rows in
   ret (FileListResponseEnvelope HTTP_200_OK
          (str_of_nat (length data) ++ of_string " file snapshots found")
          data))%session.

(* ===================================================================== *)
(** * Requests *)
(* ===================================================================== *)

Inductive Request :=
| POST_files (x_api_key : option str) (payload : FileCreate.t)
| GET_files (x_api_key : option str)
| GET_health.

(** What the client gets: the value an endpoint returned, the
    [HTTPException] it raised, or the 500 the framework answers when an
    exception escapes. *)
Inductive Reply :=
| Replied (response : Response)
| HttpError (e : HTTPException)
| ServerError (exc : Exception).

Definition reply_status (r : Reply) : Z :=
  match r with
  | Replied (FileResponseEnvelope status _ _) => status
  | Replied (FileListResponseEnvelope status _ _) => status
  | Replied (HealthResponse _ _) => HTTP_200_OK
  | HttpError e => status_code e
  | ServerError _ => HTTP_500_INTERNAL_SERVER_ERROR
  end.

(** One request served on the store: the dependencies [get_db] and
    [require_api_key] are resolved in that order, the endpoint runs, the
    session is closed. *)
Definition serve (env : Env) (req : Request) (st : Store) : Store * Reply :=
  match req with
  | POST_files x_api_key payload =>
      let db := SessionLocal st in
      match require_api_key x_api_key with
      | Raise e => (close db, HttpError e)
      | Ok api_key =>
          match create_tracked_file env payload db api_key with
          | (db', Ok response) => (close db', Replied response)
          | (db', Raise e) => (close db', HttpError e)
          end
      end
  | GET_files x_api_key =>
      let db := SessionLocal st in
      match require_api_key x_api_key with
      | Raise e => (close db, HttpError e)
      | Ok api_key =>
          match list_tracked_files env api_key db with
          | (db', Ok response) => (close db', Replied response)
          | (db', Raise exc) => (close db', ServerError exc)
          end
      end
  | GET_health => (st, Replied (health env))
  end.

(** A history of requests, each with its environment, oldest first. *)
Fixpoint run (history : list (Env * Request)) (st : Store) : Store :=
  match history with
  | [] => st
  | (env, req) :: rest => run rest (fst (serve env req st))
  end.

(** The store right after the schema was created. *)
Definition empty_store : Store := mkStore [] 1 [].

(** An environment in which the store answers every round trip. *)
Definition healthy (now : Z) : Env := mkEnv (fun _ => None) now false.


(* ===================================================================== *)
(** * Startup *)
(* ===================================================================== *)

(** What the three logging calls of [on_startup] write. *)
Inductive LogRecord :=
| LogInfo (msg : str)
| LogWarning (attempt max_attempts : nat) (exc : str)
| LogError (msg : str).

(** What [on_startup] has done so far: the calls made to
    [Base.metadata.create_all], the seconds spent in [time.sleep], the
    log. *)
Record Boot := mkBoot {
  create_all_calls : nat;
  slept : Z;
  log : list LogRecord
}.

Definition schema_created : str :=
  of_string "Database schema created successfully".

Definition could_not_connect : str :=
  of_string "Could not connect to database after retries".

Definition max_attempts : nat := 10.
Definition delay_seconds : Z := 3.

(** The [for] loop of lines 69-84 over the attempts still [todo], the next
    one being number [attempt].  [create_all n] is the outcome of the
    [n]-th call to [Base.metadata.create_all(bind=engine)]; only
    [OperationalError] is caught. *)
Fixpoint startup_loop (create_all : nat -> result Exception unit)
         (todo attempt : nat) (b : Boot) : Boot * result Exception unit :=
  match todo with
  | O => (b, Ok tt)
  | S todo' =>
      let b := mkBoot (S (create_all_calls b)) (slept b) (log b) in
      match create_all attempt with
      | Ok _ =>
          (mkBoot (create_all_calls b) (slept b)
                  (log b ++ [LogInfo schema_created]),
           Ok tt)
      | Raise (OperationalError cause) =>
          let b := mkBoot (create_all_calls b) (slept b)
                          (log b ++ [LogWarning attempt max_attempts cause]) in
          if Nat.eqb attempt max_attempts
          then (mkBoot (create_all_calls b) (slept b)
                       (log b ++ [LogError could_not_connect]),
                Raise (OperationalError cause))
          else startup_loop create_all todo' (S attempt)
                            (mkBoot (create_all_calls b)
                                    (slept b + delay_seconds) (log b))
      | Raise exc => (b, Raise exc)
      end
  end.

(** [on_startup] (lines 63-84): [range(1, max_attempts + 1)]. *)
Definition on_startup (create_all : nat -> result Exception unit)
  : Boot * result Exception unit :=
  startup_loop create_all max_attempts 1 (mkBoot 0 0 []).

(* ===================================================================== *)
(** * Predicates on rows and round trips *)
(* ===================================================================== *)




(** A text made of whitespace only. *)
Definition blank (s : str) : Prop := Forall (fun c => isspace c = true) s.

(** The characters of a text that are not whitespace, in order. *)
Definition visible_chars (s : str) : str :=
  filter (fun c => negb (isspace c)) s.

(** The only exception datetime arithmetic raises. *)
Definition date_out_of_range : Exception :=
  OverflowError (of_string "date value out of range").

(** The [id]s grow along the table and stay below the counter. *)
Definition ids_increasing (st : Store) : Prop :=
  store_ok st /\
  StronglySorted (fun a b => TrackedFile.id a < TrackedFile.id b) (table st).

(** The statements of a create call that goes all the way. *)
Definition create_round_trips : list StoreOp :=
  [OpQuery; OpInsert; OpCommit; OpRefresh].

(** The INSERTs and COMMITs among the statements a request sent. *)
Definition writes (ops : list StoreOp) : list StoreOp :=
  filter (fun op => match op with
                    | OpInsert | OpCommit => true
                    | OpQuery | OpRefresh => false
                    end) ops.

(* ===================================================================== *)
(** * Sample requests, rows and environments *)
(* ===================================================================== *)

Definition T0 : Z := 63000000000000000.

(** A create body for [/tmp/a.py] with a naive timestamp. *)
Definition a_py (content : string) (at_ : Z) : FileCreate.t :=
  FileCreate.mk (of_string "a.py") (of_string "/tmp/a.py")
                (of_string content) (naive at_).

(** Three stored snapshots: two of [a.py] inside the window around
    [T0 + 2s], one of another file. *)
Definition three_rows : list TrackedFile.t :=
  [ TrackedFile.mk 1 (of_string "a.py") (of_string "/tmp/a.py")
      (of_string "K1") (of_string "x") T0 (timedelta 10);
    TrackedFile.mk 2 (of_string "b.py") (of_string "/tmp/b.py")
      (of_string "K1") (of_string "y") (T0 + timedelta 4) (timedelta 11);
    TrackedFile.mk 3 (of_string "a.py") (of_string "/tmp/a.py")
      (of_string "K2") (of_string "z") (T0 + timedelta 3) (timedelta 12) ].

(** 0001-01-01T00:00:00+01:00: one hour before [datetime.min] in UTC. *)
Definition year_one_plus_one : datetime :=
  Datetime.mk 0 (Some (timedelta 3600)).

(** The store refuses the COMMIT. *)
Definition commit_fails : Env :=
  mkEnv (fun op => match op with
                   | OpCommit => Some (of_string "MySQL server has gone away")
                   | _ => None
                   end) 1 false.

(** The store commits and then fails on the SELECT of [refresh]. *)
Definition refresh_fails : Env :=
  mkEnv (fun op => match op with
                   | OpRefresh => Some (of_string "Lost connection")
                   | _ => None
                   end) 1 false.

(** A database that answers from the [k]-th call to [create_all] on. *)
Definition ready_at (k : nat) (n : nat) : result Exception unit :=
  if Nat.ltb n k then Raise (OperationalError (of_string "Can't connect"))
  else Ok tt.

(** A database that never answers. *)
Definition never_ready (n : nat) : result Exception unit :=
  Raise (OperationalError (of_string "Can't connect")).

(** A database whose second call fails in another way. *)
Definition breaks_at_two (n : nat) : result Exception unit :=
  match n with
  | 1%nat => Raise (OperationalError (of_string "Can't connect"))
  | _ => Raise (InvalidRequestError (of_string "no such dialect"))
  end.

(** One create request, and the row it leaves in the empty store. *)
Definition one_create : list (Env * Request) :=
  [(healthy 1, POST_files (Some (of_string "K1")) (a_py "x   y" T0))].

Definition first_row : TrackedFile.t :=
  TrackedFile.mk 1 (of_string "a.py") (of_string "/tmp/a.py")
                 (of_string "K1") (of_string "x y") T0 0.

(** The store fails on every SELECT of a query. *)
Definition query_fails : Env :=
  mkEnv (fun op => match op with
                   | OpQuery => Some (of_string "Lost connection")
                   | _ => None
                   end) 1 false.

(** A second create request, six seconds after the one of [one_create],
    and the row it leaves. *)
Definition two_creates : list (Env * Request) :=
  one_create
  ++ [(healthy 2, POST_files (Some (of_string "K1"))
                             (a_py "y" (T0 + timedelta 6)))].

Definition second_row : TrackedFile.t :=
  TrackedFile.mk 2 (of_string "a.py") (of_string "/tmp/a.py")
                 (of_string "K1") (of_string "y") (T0 + timedelta 6) 0.

(** Two create requests under one key whose INSERTs happen 0.2 s apart,
    within the same second of the clock. *)
Definition same_second_creates : list (Env * Request) :=
  [(healthy (T0 + 200000),
    POST_files (Some (of_string "K1")) (a_py "x" T0));
   (healthy (T0 + 400000),
    POST_files (Some (of_string "K1")) (a_py "y" (T0 + timedelta 6)))].

(** Two saves of one file 4.9 s apart, the first 0.4 s into a second. *)
Definition subsecond_saves : list (Env * Request) :=
  [(healthy (T0 + timedelta 20),
    POST_files (Some (of_string "K1")) (a_py "x" (T0 + 400000)));
   (healthy (T0 + timedelta 25),
    POST_files (Some (of_string "K1")) (a_py "y" (T0 + 5300000)))].

(* ===================================================================== *)
(** * Whitespace compression *)
(* ===================================================================== *)

Section TextFacts.

Lemma space_isspace : isspace space = true.
Proof. reflexivity. Qed.

Lemma re_sub_ws_cons (c : char) (rest : str) :
  re_sub_ws (c :: rest) =
  if isspace c then space :: re_sub_ws (lstrip rest)
  else c :: re_sub_ws rest.
Proof. simp re_sub_ws. destruct (isspace c); reflexivity. Qed.

Lemma lstrip_leading (s : str) : leading_ws (lstrip s) = false.
Proof.
  induction s as [|c r IH]; simpl; [reflexivity|].
  destruct (isspace c) eqn:E; [exact IH | simpl; exact E].
Qed.

Lemma lstrip_id (s : str) : leading_ws s = false -> lstrip s = s.
Proof. destruct s as [|c r]; simpl; [reflexivity|]. now intros ->. Qed.

Lemma lstrip_split (s : str) :
  exists p, s = p ++ lstrip s /\ Forall (fun c => isspace c = true) p.
Proof.
  induction s as [|c r (p & Hp & Hall)]; simpl.
  - exists []. split; [reflexivity | constructor].
  - destruct (isspace c) eqn:E.
    + exists (c :: p). split; [simpl; congruence | now constructor].
    + exists []. split; [reflexivity | constructor].
Qed.

(** [lstrip] stops at the first character that is not whitespace. *)
Lemma lstrip_app (x y : str) :
  lstrip (x ++ y) =
  match lstrip x with
  | [] => lstrip y
  | _ :: _ => lstrip x ++ y
  end.
Proof.
  induction x as [|c r IH]; simpl.
  - reflexivity.
  - destruct (isspace c); [exact IH | reflexivity].
Qed.

Lemma rev_rstrip (s : str) : rev (rstrip s) = lstrip (rev s).
Proof. unfold rstrip. apply rev_involutive. Qed.

Lemma rstrip_trailing (s : str) : trailing_ws (rstrip s) = false.
Proof. unfold trailing_ws. rewrite rev_rstrip. apply lstrip_leading. Qed.

Lemma rstrip_id (s : str) : trailing_ws s = false -> rstrip s = s.
Proof.
  unfold trailing_ws, rstrip. intros H.
  rewrite (lstrip_id _ H). apply rev_involutive.
Qed.

Lemma rstrip_split (s : str) :
  exists q, s = rstrip s ++ q /\ Forall (fun c => isspace c = true) q.
Proof.
  destruct (lstrip_split (rev s)) as (p & Hp & Hall).
  exists (rev p). split.
  - unfold rstrip. rewrite <- rev_app_distr, <- Hp.
    symmetry. apply rev_involutive.
  - now apply Forall_rev.
Qed.

Lemma rstrip_app (a b : str) :
  rstrip (a ++ b) =
  match rstrip b with
  | [] => rstrip a
  | _ :: _ => a ++ rstrip b
  end.
Proof.
  unfold rstrip. rewrite rev_app_distr, lstrip_app.
  destruct (lstrip (rev b)) as [|c r] eqn:E.
  - reflexivity.
  - rewrite rev_app_distr, rev_involutive.
    destruct (rev (c :: r)) as [|c' r'] eqn:E'; [|reflexivity].
    apply (f_equal (@length _)) in E'. rewrite length_rev in E'.
    discriminate.
Qed.

Lemma rstrip_leading (s : str) :
  leading_ws s = false -> leading_ws (rstrip s) = false.
Proof.
  destruct s as [|c r]; [reflexivity|]. simpl. intros Hc.
  change (c :: r) with ([c] ++ r). rewrite rstrip_app.
  assert (Hone : rstrip [c] = [c]).
  { unfold rstrip. simpl. now rewrite Hc. }
  destruct (rstrip r); [rewrite Hone|]; simpl; exact Hc.
Qed.

Lemma adjacent_ws_cons (a : char) (t : str) :
  adjacent_ws (a :: t) = (isspace a && leading_ws t) || adjacent_ws t.
Proof.
  destruct t as [|b t']; simpl; [now rewrite andb_false_r | reflexivity].
Qed.

Lemma adjacent_ws_app (p q : str) :
  adjacent_ws (p ++ q) = false ->
  adjacent_ws p = false /\ adjacent_ws q = false.
Proof.
  induction p as [|a p IH]; intros H.
  - now split.
  - change ((a :: p) ++ q) with (a :: (p ++ q)) in H.
    rewrite adjacent_ws_cons in H. apply orb_false_elim in H as [H1 H2].
    destruct (IH H2) as [Hp Hq]. split; [|exact Hq].
    rewrite adjacent_ws_cons, Hp, orb_false_r.
    destruct p as [|b p']; [now rewrite andb_false_r | exact H1].
Qed.

Lemma only_spaces_app (p q : str) :
  only_spaces (p ++ q) -> only_spaces p /\ only_spaces q.
Proof. unfold only_spaces. intros H. now apply Forall_app in H. Qed.

Lemma re_sub_ws_leading (s : str) :
  leading_ws (re_sub_ws s) = leading_ws s.
Proof.
  destruct s as [|c r]; [reflexivity|].
  rewrite re_sub_ws_cons. simpl.
  destruct (isspace c) eqn:E; simpl; [reflexivity | exact E].
Qed.

Lemma re_sub_ws_no_adjacent (s : str) : adjacent_ws (re_sub_ws s) = false.
Proof.
  funelim (re_sub_ws s).
  - reflexivity.
  - rewrite adjacent_ws_cons, re_sub_ws_leading, lstrip_leading, H.
    now rewrite andb_false_r.
  - rewrite adjacent_ws_cons, Heq, H. reflexivity.
Qed.

Lemma re_sub_ws_only_spaces (s : str) : only_spaces (re_sub_ws s).
Proof.
  funelim (re_sub_ws s).
  - constructor.
  - constructor; [reflexivity | exact H].
  - constructor; [congruence | exact H].
Qed.

(** A text whose whitespace is made of isolated spaces is left as it is. *)
Lemma re_sub_ws_fixed (t : str) :
  adjacent_ws t = false -> only_spaces t -> re_sub_ws t = t.
Proof.
  induction t as [|c r IH]; intros Hadj Hsp; [reflexivity|].
  rewrite adjacent_ws_cons in Hadj. apply orb_false_elim in Hadj as [H1 H2].
  inversion Hsp as [|? ? Hc Hr]; subst.
  rewrite re_sub_ws_cons. destruct (isspace c) eqn:E.
  - rewrite (Hc eq_refl). simpl in H1.
    rewrite (lstrip_id _ H1), (IH H2 Hr). reflexivity.
  - now rewrite (IH H2 Hr).
Qed.

Lemma strip_no_adjacent (s : str) :
  adjacent_ws s = false -> adjacent_ws (strip s) = false.
Proof.
  intros H. unfold strip.
  destruct (lstrip_split s) as (p & Hp & _).
  destruct (rstrip_split (lstrip s)) as (q & Hq & _).
  rewrite Hp in H. apply adjacent_ws_app in H as [_ H].
  rewrite Hq in H. now apply adjacent_ws_app in H as [H _].
Qed.

Lemma strip_only_spaces (s : str) : only_spaces s -> only_spaces (strip s).
Proof.
  intros H. unfold strip.
  destruct (lstrip_split s) as (p & Hp & _).
  destruct (rstrip_split (lstrip s)) as (q & Hq & _).
  rewrite Hp in H. apply only_spaces_app in H as [_ H].
  rewrite Hq in H. now apply only_spaces_app in H as [H _].
Qed.

Lemma strip_leading (s : str) : leading_ws (strip s) = false.
Proof. apply rstrip_leading, lstrip_leading. Qed.

Lemma strip_trailing (s : str) : trailing_ws (strip s) = false.
Proof. apply rstrip_trailing. Qed.

Lemma strip_fixed (t : str) :
  leading_ws t = false -> trailing_ws t = false -> strip t = t.
Proof.
  intros Hl Ht. unfold strip. rewrite (lstrip_id _ Hl). now apply rstrip_id.
Qed.

End TextFacts.

(** ** Compression, word by word

    [compress_content raw] is [" ".join(raw.split())]: the words of [raw]
    with one space between two of them. *)

Section Words.

Let nonws (c : char) : Prop := isspace c = false.

Lemma re_sub_ws_word (w s : str) :
  Forall nonws w -> re_sub_ws (w ++ s) = w ++ re_sub_ws s.
Proof.
  induction 1 as [|c w Hc _ IH]; [reflexivity|].
  simpl. rewrite re_sub_ws_cons, Hc, IH. reflexivity.
Qed.

Lemma strip_cons_ws (c : char) (s : str) :
  isspace c = true -> strip (c :: s) = strip s.
Proof. intros H. unfold strip. simpl. now rewrite H. Qed.

Lemma strip_re_sub_ws_lstrip (s : str) :
  strip (re_sub_ws (lstrip s)) = strip (re_sub_ws s).
Proof.
  destruct s as [|c r]; [reflexivity|].
  simpl. rewrite re_sub_ws_cons.
  destruct (isspace c) eqn:E.
  - rewrite (@strip_cons_ws space _ space_isspace). reflexivity.
  - rewrite re_sub_ws_cons, E. reflexivity.
Qed.

Lemma word_leading (w : str) : Forall nonws w -> leading_ws w = false.
Proof. destruct 1; [reflexivity | assumption]. Qed.

Lemma strip_word (w : str) : Forall nonws w -> strip w = w.
Proof.
  intros H. apply strip_fixed; [now apply word_leading|].
  unfold trailing_ws. now apply word_leading, Forall_rev.
Qed.

Lemma rstrip_word (w : str) : Forall nonws w -> rstrip w = w.
Proof.
  intros H. apply rstrip_id. unfold trailing_ws.
  now apply word_leading, Forall_rev.
Qed.

Lemma split_from_nonempty (s cur : str) :
  Forall (fun p => p <> []) (split_from cur s).
Proof.
  revert cur. induction s as [|c r IH]; intros cur; simpl.
  - destruct cur as [|a cur']; constructor; [|constructor].
    intros H. apply (f_equal (@length _)) in H.
    rewrite length_rev in H. discriminate.
  - destruct (isspace c); [|apply IH].
    destruct cur as [|a cur']; [apply IH|].
    constructor; [|apply IH].
    intros H. apply (f_equal (@length _)) in H.
    rewrite length_rev in H. discriminate.
Qed.

Lemma join_nonempty (sep p : str) (ps : list str) :
  p <> [] -> join sep (p :: ps) <> [].
Proof.
  intros Hp. simpl. destruct ps; [exact Hp|].
  destruct p; [contradiction | discriminate].
Qed.

Lemma compress_split_from (s cur : str) :
  Forall nonws cur ->
  strip (re_sub_ws (rev cur ++ s)) = join [space] (split_from cur s).
Proof.
  revert cur. induction s as [|c r IH]; intros cur Hcur.
  - rewrite app_nil_r, <- (app_nil_r (rev cur)), re_sub_ws_word
      by now apply Forall_rev.
    rewrite app_nil_r, strip_word by now apply Forall_rev.
    simpl. now destruct cur.
  - simpl split_from. destruct (isspace c) eqn:E.
    + assert (Hrest : strip (re_sub_ws (lstrip r))
                      = join [space] (split_from [] r)).
      { rewrite strip_re_sub_ws_lstrip. apply (IH [] (Forall_nil _)). }
      destruct cur as [|a cur'].
      * simpl rev. simpl app. rewrite re_sub_ws_cons, E.
        rewrite (@strip_cons_ws space _ space_isspace). exact Hrest.
      * set (w := rev (a :: cur')).
        assert (Hw : Forall nonws w) by now apply Forall_rev.
        assert (Hne : w <> []).
        { intros H. apply (f_equal (@length _)) in H.
          unfold w in H. rewrite length_rev in H. discriminate. }
        rewrite re_sub_ws_word, re_sub_ws_cons, E by exact Hw.
        set (X := re_sub_ws (lstrip r)) in *.
        assert (HX : strip X = rstrip X).
        { unfold strip. rewrite lstrip_id; [reflexivity|].
          unfold X. rewrite re_sub_ws_leading. apply lstrip_leading. }
        unfold strip at 1. rewrite lstrip_id.
        2:{ destruct w as [|x w']; [contradiction|].
            simpl. now inversion Hw. }
        change (w ++ space :: X) with (w ++ [space] ++ X).
        rewrite app_assoc, rstrip_app, <- HX, Hrest.
        pose proof (split_from_nonempty r []) as Hall.
        destruct (split_from [] r) as [|p ps] eqn:Esp.
        -- simpl join. rewrite rstrip_app.
           replace (rstrip [space]) with (@nil char) by reflexivity.
           now apply rstrip_word.
        -- inversion Hall as [|? ? Hp _]; subst.
           pose proof (join_nonempty [space] p ps Hp) as Hj.
           destruct (join [space] (p :: ps)) as [|j js] eqn:Ej;
             [contradiction|].
           change (join [space] (w :: p :: ps))
             with (w ++ [space] ++ join [space] (p :: ps)).
           rewrite Ej, app_assoc. reflexivity.
    + change (rev cur ++ c :: r) with (rev cur ++ [c] ++ r).
      rewrite app_assoc. change (rev cur ++ [c]) with (rev (c :: cur)).
      apply IH. now constructor.
Qed.

Lemma compress_content_words (raw : str) :
  compress_content raw = join [space] (split raw).
Proof. exact (compress_split_from raw [] (Forall_nil _)). Qed.

End Words.

(* ===================================================================== *)
(** * Running the handlers step by step *)
(* ===================================================================== *)

Ltac exec := unfold bind, lift, ret; cbv beta iota zeta.

Section Steps.

Variable env : Env.

Lemma execute_ok (op : StoreOp) (db : Session) :
  fault env op = None ->
  execute env op db
  = (mkSession (received [op] (store db)) (objects db) (txn db), Ok tt).
Proof. intros H. unfold execute. now rewrite H. Qed.

Lemma execute_fault (op : StoreOp) (db : Session) (cause : str) :
  fault env op = Some cause ->
  execute env op db
  = (mkSession (received [op] (store db)) (objects db) (txn db),
     Raise (OperationalError cause)).
Proof. intros H. unfold execute. now rewrite H. Qed.

Lemma first_ok (q : Query) (st : Store) :
  fault env OpQuery = None ->
  first env q (SessionLocal st)
  = (SessionLocal (received [OpQuery] st),
     Ok (hd_error (select q (table st)))).
Proof.
  intros H. unfold first. exec. rewrite execute_ok by exact H.
  unfold visible, SessionLocal. cbn. now rewrite app_nil_r.
Qed.

Lemma first_fault (q : Query) (st : Store) (cause : str) :
  fault env OpQuery = Some cause ->
  first env q (SessionLocal st)
  = (SessionLocal (received [OpQuery] st), Raise (OperationalError cause)).
Proof. intros H. unfold first. exec. now erewrite execute_fault by exact H. Qed.

Lemma all_ok (q : Query) (st : Store) :
  fault env OpQuery = None ->
  all env q (SessionLocal st)
  = (SessionLocal (received [OpQuery] st), Ok (select q (table st))).
Proof.
  intros H. unfold all. exec. rewrite execute_ok by exact H.
  unfold visible, SessionLocal. cbn. now rewrite app_nil_r.
Qed.

Lemma all_fault (q : Query) (st : Store) (cause : str) :
  fault env OpQuery = Some cause ->
  all env q (SessionLocal st)
  = (SessionLocal (received [OpQuery] st), Raise (OperationalError cause)).
Proof. intros H. unfold all. exec. now erewrite execute_fault by exact H. Qed.

Lemma find_new_row (st : Store) (row : TrackedFile.t) :
  store_ok st -> TrackedFile.id row = next_id st ->
  find (fun r => TrackedFile.id r =? next_id st) (table st ++ [row])
  = Some row.
Proof.
  unfold store_ok. intros Hok Hid.
  induction (table st) as [|r rows IH]; simpl.
  - now rewrite Hid, Z.eqb_refl.
  - inversion Hok as [|? ? Hr Hrows]; subst.
    destruct (Z.eqb_spec (TrackedFile.id r) (next_id st)); [lia|auto].
Qed.

Lemma find_some_row (rows : list TrackedFile.t) (row : TrackedFile.t)
      (pk : Z) :
  TrackedFile.id row = pk ->
  exists loaded,
    find (fun r => TrackedFile.id r =? pk) (rows ++ [row]) = Some loaded /\
    TrackedFile.id loaded = pk.
Proof.
  intros Hid. induction rows as [|r rows IH]; simpl.
  - exists row. now rewrite Hid, Z.eqb_refl.
  - destruct (Z.eqb_spec (TrackedFile.id r) pk); [now exists r | exact IH].
Qed.

End Steps.

Section CreatePaths.

Variables (env : Env) (payload : FileCreate.t) (st : Store) (api_key : str).

Let call := create_tracked_file env payload (SessionLocal st) api_key.

Lemma create_normalize_raises (e : Exception) :
  normalize_timestamp (FileCreate.timestamp payload) = Raise e ->
  call = (SessionLocal st, Raise (failed_to_save e)).
Proof.
  intros H. unfold call, create_tracked_file, create_tracked_file_try.
  exec. now rewrite H.
Qed.

Variable nts : datetime.
Hypothesis Hnts : normalize_timestamp (FileCreate.timestamp payload) = Ok nts.

Lemma create_window_start_raises (e : Exception) :
  Datetime.sub nts (timedelta 5) = Raise e ->
  call = (SessionLocal st, Raise (failed_to_save e)).
Proof.
  intros H. unfold call, create_tracked_file, create_tracked_file_try.
  exec. rewrite Hnts. cbv beta iota. now rewrite H.
Qed.

Variable window_start : datetime.
Hypothesis Hstart : Datetime.sub nts (timedelta 5) = Ok window_start.

Lemma create_window_end_raises (e : Exception) :
  Datetime.add nts (timedelta 5) = Raise e ->
  call = (SessionLocal st, Raise (failed_to_save e)).
Proof.
  intros H. unfold call, create_tracked_file, create_tracked_file_try.
  exec. rewrite Hnts. cbv beta iota. rewrite Hstart. cbv beta iota.
  now rewrite H.
Qed.

Variable window_end : datetime.
Hypothesis Hend : Datetime.add nts (timedelta 5) = Ok window_end.

Let existing :=
  hd_error (select (existing_query (FileCreate.fileName payload)
                                   (FileCreate.filePath payload)
                                   window_start window_end)
                   (table st)).

Let tracked_file := new_tracked_file payload api_key nts.

Ltac enter :=
  unfold call, create_tracked_file, create_tracked_file_try; exec;
  rewrite Hnts; cbv beta iota; rewrite Hstart; cbv beta iota;
  rewrite Hend; cbv beta iota.

Lemma create_query_fault (cause : str) :
  fault env OpQuery = Some cause ->
  call = (SessionLocal (received [OpQuery] st),
          Raise (failed_to_save (OperationalError cause))).
Proof. intros H. enter. now erewrite first_fault by exact H. Qed.

Hypothesis Hquery : fault env OpQuery = None.

Lemma create_duplicate (row : TrackedFile.t) :
  existing = Some row ->
  call = (SessionLocal (received [OpQuery] st),
          Ok (FileResponseEnvelope HTTP_200_OK
                (of_string "File snapshot already stored")
                (FileResponse.model_validate row))).
Proof.
  intros H. enter. rewrite first_ok by exact Hquery.
  fold existing. now rewrite H.
Qed.

Hypothesis Hnone : existing = None.

Ltac enter_insert :=
  enter; rewrite first_ok by exact Hquery; fold existing; rewrite Hnone;
  unfold add, commit, flush; exec;
  cbn [objects SessionLocal app flush_objects]; unfold insert; exec.

Lemma create_insert_fault (cause : str) :
  fault env OpInsert = Some cause ->
  call = (mkSession (received [OpQuery; OpInsert] st) [Expunged] [],
          Raise (failed_to_save (OperationalError cause))).
Proof.
  intros H. enter_insert. erewrite execute_fault by exact H.
  unfold rollback, received. cbn. now rewrite <- app_assoc.
Qed.

Hypothesis Hinsert : fault env OpInsert = None.

Lemma create_commit_fault (cause : str) :
  fault env OpCommit = Some cause ->
  call = (mkSession (mkStore (table st) (next_id st + 1)
                             (trace st ++ [OpQuery; OpInsert; OpCommit]))
                    [Expunged] [],
          Raise (failed_to_save (OperationalError cause))).
Proof.
  intros H. enter_insert. rewrite execute_ok by exact Hinsert.
  cbn [flush_objects]. exec. erewrite execute_fault by exact H.
  unfold rollback, received. cbn. rewrite Z.eqb_refl. cbn.
  now rewrite <- !app_assoc.
Qed.

Hypothesis Hcommit : fault env OpCommit = None.

Let row := inserted env tracked_file st.

Let committed (ops : list StoreOp) :=
  mkSession (mkStore (table st ++ [row]) (next_id st + 1) (trace st ++ ops))
            [Persistent (next_id st)] [].

Lemma create_refresh_fault (cause : str) :
  fault env OpRefresh = Some cause ->
  call = (committed [OpQuery; OpInsert; OpCommit; OpRefresh],
          Raise (failed_to_save (OperationalError cause))).
Proof.
  intros H. enter_insert. rewrite execute_ok by exact Hinsert.
  cbn [flush_objects]. exec. rewrite execute_ok by exact Hcommit.
  unfold refresh. cbn [objects nth_error length]. exec.
  erewrite execute_fault by exact H.
  unfold rollback, received, committed, row, tracked_file, new_tracked_file.
  cbn.
  now rewrite <- !app_assoc.
Qed.

Hypothesis Hrefresh : fault env OpRefresh = None.

(** The commit went through: the row is in the table, and [refresh]
    loads a row with the new [id]. *)
Lemma create_committed :
  exists loaded,
    find (fun r => TrackedFile.id r =? next_id st) (table st ++ [row])
      = Some loaded /\
    call = (committed [OpQuery; OpInsert; OpCommit; OpRefresh],
            Ok (FileResponseEnvelope HTTP_201_CREATED
                  (of_string "File snapshot created")
                  (FileResponse.model_validate loaded))).
Proof.
  destruct (find_some_row (table st) row (next_id st) eq_refl)
    as (loaded & Hfind & _).
  exists loaded. split; [exact Hfind|].
  enter_insert. rewrite execute_ok by exact Hinsert.
  cbn [flush_objects]. exec. rewrite execute_ok by exact Hcommit.
  unfold refresh. cbn [objects nth_error length]. exec.
  rewrite execute_ok by exact Hrefresh.
  unfold visible, received, inserted.
  cbn [store txn table next_id trace objects SessionLocal app].
  rewrite ?app_nil_r.
  unfold row, inserted, tracked_file, new_tracked_file in Hfind.
  rewrite Hfind.
  unfold committed, row, inserted, tracked_file, new_tracked_file.
  now rewrite <- !app_assoc.
Qed.

Hypothesis Hok : store_ok st.

Lemma create_created :
  call = (committed [OpQuery; OpInsert; OpCommit; OpRefresh],
          Ok (FileResponseEnvelope HTTP_201_CREATED
                (of_string "File snapshot created")
                (FileResponse.model_validate row))).
Proof.
  destruct create_committed as (loaded & Hfind & Hcall).
  rewrite find_new_row in Hfind by (exact Hok || reflexivity).
  injection Hfind as <-. exact Hcall.
Qed.

End CreatePaths.

(* ===================================================================== *)
(** * Queries: filtering and ordering *)
(* ===================================================================== *)

Section OrderBy.

Context {A : Type} (col : A -> Z).

Lemma insert_desc_perm (x : A) (l : list A) :
  Permutation (insert_desc col x l) (x :: l).
Proof.
  induction l as [|y l IH]; simpl; [reflexivity|].
  destruct (col y <=? col x); [reflexivity|].
  rewrite IH. apply perm_swap.
Qed.

Lemma order_by_desc_perm (l : list A) : Permutation (order_by_desc col l) l.
Proof.
  induction l as [|x l IH]; simpl; [reflexivity|].
  rewrite insert_desc_perm. now apply perm_skip.
Qed.

Lemma insert_desc_sorted (x : A) (l : list A) :
  StronglySorted (desc col) l ->
  StronglySorted (desc col) (insert_desc col x l).
Proof.
  induction 1 as [|y l Hl IH Hy]; simpl.
  - repeat constructor.
  - destruct (Z.leb_spec (col y) (col x)) as [Hle|Hlt].
    + constructor; [now constructor|].
      constructor; [exact Hle|].
      eapply Forall_impl; [|exact Hy]. unfold desc. intros; lia.
    + constructor; [exact IH|].
      eapply Permutation_Forall; [symmetry; apply insert_desc_perm|].
      constructor; [unfold desc; lia | exact Hy].
Qed.

Lemma order_by_desc_sorted (l : list A) :
  StronglySorted (desc col) (order_by_desc col l).
Proof.
  induction l as [|x l IH]; simpl; [constructor|].
  now apply insert_desc_sorted.
Qed.

Lemma order_by_desc_In (l : list A) (x : A) :
  In x (order_by_desc col l) <-> In x l.
Proof.
  split; apply Permutation_in;
    [apply order_by_desc_perm | symmetry; apply order_by_desc_perm].
Qed.

(** The first row of the listing carries the largest value. *)
Lemma order_by_desc_first (l : list A) (x : A) :
  hd_error (order_by_desc col l) = Some x ->
  In x l /\ forall y, In y l -> col y <= col x.
Proof.
  intros H. pose proof (order_by_desc_sorted l) as Hs.
  destruct (order_by_desc col l) as [|z s] eqn:E; [discriminate|].
  injection H as ->.
  assert (Hin : forall y, In y l <-> In y (x :: s)).
  { intros y. rewrite <- E. symmetry. apply order_by_desc_In. }
  split; [apply Hin; now left|].
  intros y Hy. apply Hin in Hy as [<-|Hy]; [lia|].
  inversion Hs as [|? ? _ Hall]; subst.
  rewrite Forall_forall in Hall. exact (Hall y Hy).
Qed.

Lemma order_by_desc_none (l : list A) :
  hd_error (order_by_desc col l) = None <-> l = [].
Proof.
  split.
  - intros H. destruct (order_by_desc col l) as [|z s] eqn:E;
      [|discriminate].
    apply Permutation_nil. rewrite <- E. apply order_by_desc_perm.
  - now intros ->.
Qed.

End OrderBy.

Lemma str_eqb_eq (a b : str) : str_eqb a b = true <-> a = b.
Proof.
  revert b. induction a as [|x a IH]; intros [|y b]; simpl.
  - tauto.
  - split; discriminate.
  - split; discriminate.
  - rewrite andb_true_iff, N.eqb_eq, IH.
    split; [intros [-> ->]; reflexivity | intros H; injection H; auto].
Qed.

Lemma str_eqb_refl (a : str) : str_eqb a a = true.
Proof. now apply str_eqb_eq. Qed.

Lemma between_spec (x lo hi : Z) : between x lo hi = true <-> lo <= x <= hi.
Proof. unfold between. rewrite andb_true_iff, !Z.leb_le. tauto. Qed.

Lemma add_inv (d d' : datetime) (delta : Z) :
  Datetime.add d delta = Ok d' ->
  ticks d' = ticks d + delta /\ tzinfo d' = tzinfo d /\
  0 <= ticks d' <= MAX_TICKS.
Proof.
  unfold Datetime.add. destruct (in_range (ticks d + delta)) eqn:E;
    [|discriminate].
  intros H. injection H as <-. cbn.
  unfold in_range in E. apply andb_true_iff in E as [E1 E2].
  apply Z.leb_le in E1, E2. auto.
Qed.

Lemma sub_inv (d d' : datetime) (delta : Z) :
  Datetime.sub d delta = Ok d' ->
  ticks d' = ticks d - delta /\ tzinfo d' = tzinfo d /\
  0 <= ticks d' <= MAX_TICKS.
Proof.
  unfold Datetime.sub. intros H. apply add_inv in H as (H1 & H2 & H3).
  repeat split; try tauto; lia.
Qed.

Lemma existing_query_criteria (fileName filePath : str)
      (nts window_start window_end : datetime) (row : TrackedFile.t) :
  Datetime.sub nts (timedelta 5) = Ok window_start ->
  Datetime.add nts (timedelta 5) = Ok window_end ->
  criteria (existing_query fileName filePath window_start window_end) row
    = true
  <-> in_window fileName filePath nts row.
Proof.
  intros Hs Ha.
  apply sub_inv in Hs as (Hs & _). apply add_inv in Ha as (Ha & _).
  unfold in_window. cbn.
  rewrite !andb_true_iff, !str_eqb_eq, between_spec, Hs, Ha. tauto.
Qed.


(** C1. The duplicate lookup (the query of lines 102-114 on the stored
    rows, for the window around the normalized timestamp) returns a stored
    snapshot exactly when one has the candidate's [fileName] and [filePath]
    and a timestamp in the closed interval
    [normalized_ts - 5s, normalized_ts + 5s]; what it returns is such a
    snapshot with the latest timestamp among them, and it returns none when
    no stored snapshot matches. *)
Theorem duplicate_lookup_spec
        (rows : list TrackedFile.t) (fileName filePath : str)
        (normalized_ts window_start window_end : datetime) :
  Datetime.sub normalized_ts (timedelta 5) = Ok window_start ->
  Datetime.add normalized_ts (timedelta 5) = Ok window_end ->
  let existing :=
    hd_error (select (existing_query fileName filePath
                                     window_start window_end) rows) in
  let candidate := in_window fileName filePath normalized_ts in
  (forall row, existing = Some row ->
     In row rows /\ candidate row /\
     forall other, In other rows -> candidate other ->
       TrackedFile.timestamp other <= TrackedFile.timestamp row) /\
  ((exists row, existing = Some row) <->
   (exists row, In row rows /\ candidate row)) /\
  (existing = None <-> forall row, In row rows -> ~ candidate row).
Proof.
  intros Hs Ha existing candidate.
  set (q := existing_query fileName filePath window_start window_end) in *.
  assert (Hcrit : forall row, In row (filter (criteria q) rows)
                              <-> In row rows /\ candidate row).
  { intros row. rewrite filter_In.
    unfold q, candidate.
    now rewrite (existing_query_criteria _ _ _ _ _ _ Hs Ha). }
  assert (Hsome : forall row, existing = Some row ->
            In row rows /\ candidate row /\
            forall other, In other rows -> candidate other ->
              TrackedFile.timestamp other <= TrackedFile.timestamp row).
  { intros row H. apply order_by_desc_first in H as [Hin Hmax].
    apply Hcrit in Hin as [Hin Hc]. split; [exact Hin|]. split; [exact Hc|].
    intros other Ho Hco. apply Hmax. apply Hcrit. now split. }
  assert (Hnone : existing = None
                  <-> forall row, In row rows -> ~ candidate row).
  { unfold existing, select. rewrite order_by_desc_none. split.
    - intros Hnil row Hin Hc.
      assert (Hf : In row (filter (criteria q) rows)) by (apply Hcrit; tauto).
      rewrite Hnil in Hf. exact Hf.
    - intros Hno. destruct (filter (criteria q) rows) as [|row l] eqn:E;
        [reflexivity|].
      destruct (proj1 (Hcrit row) (or_introl eq_refl)) as [Hin Hc].
      now destruct (Hno row Hin). }
  split; [exact Hsome|]. split; [|exact Hnone].
  split.
  - intros [row H]. exists row. destruct (Hsome row H) as (Hin & Hc & _).
    now split.
  - intros [row [Hin Hc]]. destruct existing as [found|] eqn:E.
    + now exists found.
    + exfalso. destruct Hnone as [Hn _]. exact (Hn eq_refl row Hin Hc).
Qed.

Lemma duplicate_lookup_spec_witness :
  let existing :=
    hd_error (select (existing_query (of_string "a.py") (of_string "/tmp/a.py")
                                     (naive (T0 - timedelta 3))
                                     (naive (T0 + timedelta 7)))
                     three_rows) in
  let candidate :=
    in_window (of_string "a.py") (of_string "/tmp/a.py")
              (naive (T0 + timedelta 2)) in
  (forall row, existing = Some row ->
     In row three_rows /\ candidate row /\
     forall other, In other three_rows -> candidate other ->
       TrackedFile.timestamp other <= TrackedFile.timestamp row) /\
  ((exists row, existing = Some row) <->
   (exists row, In row three_rows /\ candidate row)) /\
  (existing = None <-> forall row, In row three_rows -> ~ candidate row).
Proof.
  apply (duplicate_lookup_spec three_rows (of_string "a.py")
           (of_string "/tmp/a.py") (naive (T0 + timedelta 2))).
  - reflexivity.
  - reflexivity.
Defined.

Example duplicate_lookup_latest :
  hd_error (select (existing_query (of_string "a.py") (of_string "/tmp/a.py")
                                   (naive (T0 - timedelta 3))
                                   (naive (T0 + timedelta 7)))
                   three_rows)
  = nth_error three_rows 2.
Proof. reflexivity. Qed.

(* ===================================================================== *)
(** * The normalizers *)
(* ===================================================================== *)

(** C4. For every raw text [s], [compress_content] is idempotent, its
    result has no two adjacent whitespace characters and no leading or
    trailing whitespace; every maximal run of whitespace has become one
    space and the ends are trimmed: the result is the words of [s] joined
    by single spaces, and the only whitespace left in it is the space
    character. *)
Theorem compress_content_normal_form (s : str) :
  compress_content (compress_content s) = compress_content s /\
  adjacent_ws (compress_content s) = false /\
  leading_ws (compress_content s) = false /\
  trailing_ws (compress_content s) = false /\
  only_spaces (compress_content s) /\
  compress_content s = join [space] (split s).
Proof.
  assert (Hadj : adjacent_ws (compress_content s) = false)
    by apply strip_no_adjacent, re_sub_ws_no_adjacent.
  assert (Hsp : only_spaces (compress_content s))
    by apply strip_only_spaces, re_sub_ws_only_spaces.
  assert (Hl : leading_ws (compress_content s) = false)
    by apply strip_leading.
  assert (Ht : trailing_ws (compress_content s) = false)
    by apply strip_trailing.
  repeat split; try assumption.
  - unfold compress_content at 1.
    rewrite (re_sub_ws_fixed _ Hadj Hsp). now apply strip_fixed.
  - apply compress_content_words.
Qed.

(** C5, as stated, fails: a well-formed aware timestamp whose UTC
    equivalent lies before [datetime.min] makes [normalize_timestamp]
    raise, so it does not return a value for every timestamp. *)
Lemma normalize_timestamp_year_one :
  Datetime.wf year_one_plus_one /\
  normalize_timestamp year_one_plus_one
  = Raise (OverflowError (of_string "date value out of range")) /\
  ~ (forall t, Datetime.wf t ->
       exists n, normalize_timestamp t = Ok n /\ tzinfo n = None /\
                 ticks n = utc_ticks t).
Proof.
  assert (Hwf : Datetime.wf year_one_plus_one).
  { unfold Datetime.wf, year_one_plus_one, MAX_TICKS, timedelta; cbn. lia. }
  split; [exact Hwf|]. split; [reflexivity|].
  intros H. destruct (H _ Hwf) as (n & Hn & _). discriminate Hn.
Qed.

Lemma normalize_timestamp_ok (t : datetime) :
  0 <= utc_ticks t <= MAX_TICKS ->
  normalize_timestamp t = Ok (naive (utc_ticks t)).
Proof.
  intros Hr. destruct t as [tk [off|]].
  - unfold normalize_timestamp, astimezone_utc, Datetime.sub, Datetime.add,
      in_range, utc_ticks in *.
    cbn [tzinfo ticks] in *.
    replace (tk + - off) with (tk - off) by lia.
    destruct (Z.leb_spec 0 (tk - off)); [|lia].
    destruct (Z.leb_spec (tk - off) MAX_TICKS); [|lia].
    reflexivity.
  - reflexivity.
Qed.

Lemma window_ok (n : datetime) :
  timedelta 5 <= ticks n <= MAX_TICKS - timedelta 5 ->
  Datetime.sub n (timedelta 5)
    = Ok (Datetime.mk (ticks n - timedelta 5) (tzinfo n)) /\
  Datetime.add n (timedelta 5)
    = Ok (Datetime.mk (ticks n + timedelta 5) (tzinfo n)).
Proof.
  intros H. unfold Datetime.sub, Datetime.add, in_range.
  assert (H5 : 0 <= timedelta 5) by (unfold timedelta; lia).
  replace (ticks n + - timedelta 5) with (ticks n - timedelta 5) by lia.
  destruct (Z.leb_spec 0 (ticks n - timedelta 5)); [|lia].
  destruct (Z.leb_spec (ticks n - timedelta 5) MAX_TICKS); [|lia].
  destruct (Z.leb_spec 0 (ticks n + timedelta 5)); [|lia].
  destruct (Z.leb_spec (ticks n + timedelta 5) MAX_TICKS); [|lia].
  split; reflexivity.
Qed.

Lemma normalize_timestamp_inv (t n : datetime) :
  normalize_timestamp t = Ok n -> tzinfo n = None /\ ticks n = utc_ticks t.
Proof.
  unfold normalize_timestamp, utc_ticks, astimezone_utc.
  destruct t as [tk [off|]]; cbn [tzinfo ticks].
  - destruct (Datetime.sub _ off) as [u|e] eqn:E; [|discriminate].
    intros H. injection H as <-. apply sub_inv in E as (E & _).
    cbn in *. auto.
  - intros H. injection H as <-. auto.
Qed.

(** C5, amended.  An input without offset is returned unchanged, so
    [normalize_timestamp] is idempotent on naive input.  For every
    timestamp whose UTC equivalent is a representable datetime the result
    is timezone-naive and denotes that UTC instant (the offset is taken
    off the fields and dropped), and it is a fixed point.  Whatever is
    returned is naive and denotes the UTC instant of the input. *)
Theorem normalize_timestamp_spec (t : datetime) :
  (tzinfo t = None -> normalize_timestamp t = Ok t) /\
  (0 <= utc_ticks t <= MAX_TICKS ->
   normalize_timestamp t = Ok (naive (utc_ticks t)) /\
   normalize_timestamp (naive (utc_ticks t)) = Ok (naive (utc_ticks t))) /\
  (forall n, normalize_timestamp t = Ok n ->
     tzinfo n = None /\ ticks n = utc_ticks t /\ utc_ticks n = utc_ticks t /\
     normalize_timestamp n = Ok n).
Proof.
  assert (Hnaive : tzinfo t = None -> normalize_timestamp t = Ok t).
  { intros H. unfold normalize_timestamp. now rewrite H. }
  pose proof (normalize_timestamp_inv t) as Hret.
  split; [exact Hnaive|]. split.
  - intros Hr. split; [now apply normalize_timestamp_ok | reflexivity].
  - intros n Hn. destruct (Hret n Hn) as [Hz Htk].
    repeat split; try assumption.
    + unfold utc_ticks at 1. now rewrite Hz.
    + unfold normalize_timestamp. now rewrite Hz.
Qed.

(** 12:00 at +01:00 is 11:00 UTC. *)
Lemma normalize_timestamp_spec_witness :
  normalize_timestamp (Datetime.mk (T0 + timedelta 3600)
                                   (Some (timedelta 3600)))
  = Ok (naive T0) /\
  normalize_timestamp (naive T0) = Ok (naive T0).
Proof.
  apply (proj1 (proj2 (normalize_timestamp_spec
                         (Datetime.mk (T0 + timedelta 3600)
                                      (Some (timedelta 3600)))))).
  vm_compute. split; discriminate.
Defined.

(* ===================================================================== *)
(** * The API key *)
(* ===================================================================== *)

(** C9, as stated, fails for a header that is present and empty: the
    extracted key is not the header value, the request is refused. *)
Lemma require_api_key_empty_header :
  require_api_key (Some []) = Raise missing_key /\
  ~ (forall value, require_api_key (Some value) = Ok value).
Proof.
  split; [reflexivity|]. intros H. specialize (H []). discriminate H.
Qed.

(** C9, amended.  A request to the create or the list endpoint whose
    [x-api-key] header is absent or empty is answered 401; the store is
    left exactly as it was, no round trip is recorded, and the answer is
    the same whatever the store holds and whether or not it responds.
    When the header is present and not empty the extracted key is the
    header value. *)
Theorem missing_api_key_unauthorized
        (env : Env) (st : Store) (payload : FileCreate.t)
        (x_api_key : option str) :
  (truthy x_api_key = false ->
   serve env (POST_files x_api_key payload) st = (st, HttpError missing_key) /\
   serve env (GET_files x_api_key) st = (st, HttpError missing_key) /\
   reply_status (HttpError missing_key) = 401) /\
  (forall value, x_api_key = Some value -> value <> [] ->
     require_api_key x_api_key = Ok value).
Proof.
  split.
  - intros H. unfold serve, require_api_key. rewrite H. cbn.
    now destruct st.
  - intros value -> Hv. destruct value; [contradiction | reflexivity].
Qed.

Lemma missing_api_key_unauthorized_witness :
  serve (healthy 1) (POST_files None (a_py "x" T0)) empty_store
    = (empty_store, HttpError missing_key) /\
  serve (healthy 1) (GET_files None) empty_store
    = (empty_store, HttpError missing_key) /\
  reply_status (HttpError missing_key) = 401.
Proof.
  apply (proj1 (missing_api_key_unauthorized
                  (healthy 1) empty_store (a_py "x" T0) None)).
  reflexivity.
Defined.

(* ===================================================================== *)
(** * Every way a create call can go *)
(* ===================================================================== *)

Section CreateCases.

Variables (env : Env) (payload : FileCreate.t) (st : Store) (api_key : str).

Let call := create_tracked_file env payload (SessionLocal st) api_key.

Let lookup (window_start window_end : datetime) :=
  hd_error (select (existing_query (FileCreate.fileName payload)
                                   (FileCreate.filePath payload)
                                   window_start window_end)
                   (table st)).

Let failure (cause : str) : result HTTPException Response :=
  Raise (failed_to_save (OperationalError cause)).

Lemma create_tracked_file_cases :
  (exists e, call = (SessionLocal st, Raise (failed_to_save e))) \/
  exists nts window_start window_end,
    normalize_timestamp (FileCreate.timestamp payload) = Ok nts /\
    Datetime.sub nts (timedelta 5) = Ok window_start /\
    Datetime.add nts (timedelta 5) = Ok window_end /\
    let row := inserted env (new_tracked_file payload api_key nts) st in
    let committed ops :=
      mkSession (mkStore (table st ++ [row]) (next_id st + 1)
                         (trace st ++ ops))
                [Persistent (next_id st)] [] in
    ((exists cause,
        fault env OpQuery = Some cause /\
        call = (SessionLocal (received [OpQuery] st), failure cause)) \/
     (exists found,
        fault env OpQuery = None /\
        lookup window_start window_end = Some found /\
        call = (SessionLocal (received [OpQuery] st),
                Ok (FileResponseEnvelope HTTP_200_OK
                      (of_string "File snapshot already stored")
                      (FileResponse.model_validate found)))) \/
     (exists cause,
        fault env OpQuery = None /\
        lookup window_start window_end = None /\
        fault env OpInsert = Some cause /\
        call = (mkSession (received [OpQuery; OpInsert] st) [Expunged] [],
                failure cause)) \/
     (exists cause,
        fault env OpQuery = None /\
        lookup window_start window_end = None /\
        fault env OpInsert = None /\
        fault env OpCommit = Some cause /\
        call = (mkSession (mkStore (table st) (next_id st + 1)
                             (trace st ++ [OpQuery; OpInsert; OpCommit]))
                          [Expunged] [],
                failure cause)) \/
     (exists cause,
        fault env OpQuery = None /\
        lookup window_start window_end = None /\
        fault env OpInsert = None /\
        fault env OpCommit = None /\
        fault env OpRefresh = Some cause /\
        call = (committed [OpQuery; OpInsert; OpCommit; OpRefresh],
                failure cause)) \/
     (exists loaded,
        lookup window_start window_end = None /\
        (forall op, fault env op = None) /\
        TrackedFile.id loaded = next_id st /\
        call = (committed [OpQuery; OpInsert; OpCommit; OpRefresh],
                Ok (FileResponseEnvelope HTTP_201_CREATED
                      (of_string "File snapshot created")
                      (FileResponse.model_validate loaded))))).
Proof.
  destruct (normalize_timestamp (FileCreate.timestamp payload))
    as [nts|e] eqn:Hn.
  2:{ left. exists e. now apply create_normalize_raises. }
  destruct (Datetime.sub nts (timedelta 5)) as [ws|e] eqn:Hs.
  2:{ left. exists e. now apply (create_window_start_raises _ _ _ _ nts). }
  destruct (Datetime.add nts (timedelta 5)) as [we|e] eqn:Ha.
  2:{ left. exists e.
      now apply (create_window_end_raises _ _ _ _ nts Hn ws). }
  right. exists nts, ws, we.
  repeat (split; [first [assumption | reflexivity]|]).
  cbv zeta.
  destruct (fault env OpQuery) as [cause|] eqn:HQ.
  { left. exists cause. split; [reflexivity|].
    now apply (create_query_fault _ _ _ _ nts Hn ws Hs we). }
  right.
  destruct (lookup ws we) as [found|] eqn:Hl.
  { left. exists found. repeat (split; [reflexivity|]).
    now apply (create_duplicate _ _ _ _ nts Hn ws Hs we). }
  right.
  destruct (fault env OpInsert) as [cause|] eqn:HI.
  { left. exists cause. repeat (split; [reflexivity|]).
    now apply (create_insert_fault _ _ _ _ nts Hn ws Hs we). }
  right.
  destruct (fault env OpCommit) as [cause|] eqn:HC.
  { left. exists cause. repeat (split; [reflexivity|]).
    now apply (create_commit_fault _ _ _ _ nts Hn ws Hs we). }
  right.
  destruct (fault env OpRefresh) as [cause|] eqn:HR.
  { left. exists cause. repeat (split; [reflexivity|]).
    now apply (create_refresh_fault _ _ _ _ nts Hn ws Hs we). }
  right.
  destruct (create_committed env payload st api_key nts Hn ws Hs we Ha
              HQ Hl HI HC HR) as (loaded & Hfind & Hcall).
  exists loaded. split; [reflexivity|].
  split; [now intros []|]. split; [|exact Hcall].
  apply find_some in Hfind as [_ Hid]. now apply Z.eqb_eq in Hid.
Qed.

End CreateCases.

(* ===================================================================== *)
(** * Creating a snapshot *)
(* ===================================================================== *)



(** C8. When a round trip of a create call fails, the caller receives
    status 500 with detail "Failed to save file: " followed by the cause,
    the transaction is rolled back (no row is left in it and no instance
    is left pending), and when the failed round trip is the lookup, the
    INSERT or the COMMIT the table is what it was before the call. *)
Theorem store_fault_rolled_back
        (env : Env) (payload : FileCreate.t) (st : Store) (api_key : str)
        (db' : Session) (outcome : result HTTPException Response)
        (ops : list StoreOp) (op : StoreOp) (cause : str) :
  create_tracked_file env payload (SessionLocal st) api_key = (db', outcome) ->
  trace (store db') = trace st ++ ops ->
  In op ops ->
  fault env op = Some cause ->
  outcome = Raise (mkHTTPException 500
                     (of_string "Failed to save file: " ++ cause)) /\
  txn db' = [] /\
  Forall (fun obj => forall o, obj <> Pending o) (objects db') /\
  (op <> OpRefresh -> table (close db') = table st).
Proof.
  intros Hcall Htrace Hin Hfault.
  assert (Hops : forall l, trace (store db') = trace st ++ l -> ops = l).
  { intros l Hl. rewrite Htrace in Hl. now apply app_inv_head in Hl. }
  destruct (create_tracked_file_cases env payload st api_key)
    as [(e & H) | (nts & ws & we & _ & _ & _ & H)].
  { rewrite H in Hcall. injection Hcall as <- <-.
    rewrite (Hops [] (eq_sym (app_nil_r _))) in Hin. destruct Hin. }
  cbv zeta in H.
  destruct H as [(c & HQ & H) | [(found & HQ & _ & H) |
                [(c & HQ & _ & HI & H) | [(c & HQ & _ & HI & HC & H) |
                [(c & HQ & _ & HI & HC & HR & H) |
                 (loaded & _ & Hnone & _ & H)]]]]];
    rewrite H in Hcall; injection Hcall as <- <-;
    rewrite (Hops _ eq_refl) in Hin; cbn in Hin;
    repeat (destruct Hin as [<-|Hin]; [try congruence|]);
    try contradiction;
    try (rewrite Hnone in Hfault; discriminate).
  all: assert (c = cause) as -> by congruence.
  all: cbn; repeat split; try reflexivity; try congruence;
    repeat constructor; try discriminate.
Qed.

Lemma store_fault_rolled_back_witness :
  let call := create_tracked_file commit_fails (a_py "x" T0)
                                  (SessionLocal empty_store)
                                  (of_string "K1") in
  snd call = Raise (mkHTTPException 500
                      (of_string "Failed to save file: "
                       ++ of_string "MySQL server has gone away")) /\
  txn (fst call) = [] /\
  Forall (fun obj => forall o, obj <> Pending o) (objects (fst call)) /\
  (OpCommit <> OpRefresh -> table (close (fst call)) = table empty_store).
Proof.
  intros call.
  apply (store_fault_rolled_back commit_fails (a_py "x" T0) empty_store
           (of_string "K1") (fst call) (snd call)
           [OpQuery; OpInsert; OpCommit] OpCommit
           (of_string "MySQL server has gone away")).
  - reflexivity.
  - reflexivity.
  - simpl. tauto.
  - reflexivity.
Defined.

(* ===================================================================== *)
(** * What the [DateTime] columns keep *)
(* ===================================================================== *)

Ltac divlia :=
  unfold whole_second, to_column, timedelta in *;
  repeat match goal with
         | |- context [truncate_fractional ?e] =>
             destruct (truncate_fractional e)
         | H : context [truncate_fractional ?e] |- _ =>
             destruct (truncate_fractional e)
         end;
  Z.to_euclidean_division_equations; lia.

Section Columns.

Variable env : Env.

Lemma to_column_whole (t : Z) : whole_second (to_column env t).
Proof. divlia. Qed.

(** Less than a second is lost, at most half a second is gained. *)
Lemma to_column_near (t : Z) :
  t - 1000000 < to_column env t <= t + 500000.
Proof. divlia. Qed.

Lemma to_column_id (t : Z) : whole_second t -> to_column env t = t.
Proof. intros H. divlia. Qed.



End Columns.

(* ===================================================================== *)
(** * Requests and histories *)
(* ===================================================================== *)

Lemma require_api_key_inv (x_api_key : option str) (api_key : str) :
  require_api_key x_api_key = Ok api_key ->
  x_api_key = Some api_key /\ api_key <> [].
Proof.
  destruct x_api_key as [[|c k]|]; cbn; try discriminate.
  intros H. injection H as <-. split; [reflexivity | discriminate].
Qed.

Lemma list_tracked_files_ok (env : Env) (api_key : str) (st : Store) :
  fault env OpQuery = None ->
  list_tracked_files env api_key (SessionLocal st)
  = (SessionLocal (received [OpQuery] st),
     let rows := select (mkQuery (fun row => str_eqb (TrackedFile.key row)
                                                     api_key)
                                 TrackedFile.created_at)
                        (table st) in
     let data := map FileResponse.model_validate rows in
     Ok (FileListResponseEnvelope HTTP_200_OK
           (str_of_nat (length data) ++ of_string " file snapshots found")
           data)).
Proof.
  intros H. unfold list_tracked_files. exec. now rewrite all_ok by exact H.
Qed.

Lemma list_tracked_files_fault (env : Env) (api_key : str) (st : Store)
      (cause : str) :
  fault env OpQuery = Some cause ->
  list_tracked_files env api_key (SessionLocal st)
  = (SessionLocal (received [OpQuery] st), Raise (OperationalError cause)).
Proof.
  intros H. unfold list_tracked_files. exec.
  now erewrite all_fault by exact H.
Qed.

(** A request leaves the table as it is or appends the one row a create
    call built from its payload. *)
Lemma serve_table (env : Env) (req : Request) (st : Store) :
  table (fst (serve env req st)) = table st \/
  exists api_key payload nts,
    req = POST_files (Some api_key) payload /\
    normalize_timestamp (FileCreate.timestamp payload) = Ok nts /\
    table (fst (serve env req st))
    = table st ++ [inserted env (new_tracked_file payload api_key nts) st].
Proof.
  destruct req as [x_api_key payload | x_api_key |]; cbn [serve].
  - destruct (require_api_key x_api_key) as [api_key|e] eqn:R; [|now left].
    apply require_api_key_inv in R as [-> _].
    destruct (create_tracked_file_cases env payload st api_key)
      as [(e & H) | (nts & ws & we & Hn & _ & _ & H)].
    { rewrite H. now left. }
    cbv zeta in H.
    destruct H as [(c & _ & H) | [(found & _ & _ & H) |
                  [(c & _ & _ & _ & H) | [(c & _ & _ & _ & _ & H) |
                  [(c & _ & _ & _ & _ & _ & H) |
                   (loaded & _ & _ & _ & H)]]]]];
      rewrite H; cbn; try (now left);
      right; exists api_key, payload, nts; auto.
  - destruct (require_api_key x_api_key) as [api_key|e]; [|now left].
    destruct (fault env OpQuery) as [cause|] eqn:HQ.
    + rewrite (list_tracked_files_fault env api_key st cause HQ). now left.
    + rewrite (list_tracked_files_ok env api_key st HQ). now left.
  - now left.
Qed.

Lemma run_app (h1 h2 : list (Env * Request)) (st : Store) :
  run (h1 ++ h2) st = run h2 (run h1 st).
Proof.
  revert st. induction h1 as [|[env req] h1 IH]; intros st; simpl;
    [reflexivity | apply IH].
Qed.

(** Rows are only ever appended. *)
Lemma run_table_grows (history : list (Env * Request)) (st : Store) :
  exists added, table (run history st) = table st ++ added.
Proof.
  revert st. induction history as [|[env req] history IH]; intros st; simpl.
  - exists []. now rewrite app_nil_r.
  - destruct (IH (fst (serve env req st))) as [added Hadded].
    destruct (serve_table env req st)
      as [Hsame | (k & p & nts & _ & _ & Hnew)].
    + exists added. now rewrite Hadded, Hsame.
    + eexists. rewrite Hadded, Hnew, <- app_assoc. reflexivity.
Qed.

(** Every row comes from a create request of the history. *)
Lemma run_rows_created (history : list (Env * Request)) (st : Store)
      (row : TrackedFile.t) :
  In row (table (run history st)) ->
  In row (table st) \/
  exists env api_key payload nts st0,
    In (env, POST_files (Some api_key) payload) history /\
    normalize_timestamp (FileCreate.timestamp payload) = Ok nts /\
    row = inserted env (new_tracked_file payload api_key nts) st0.
Proof.
  revert st. induction history as [|[env req] history IH]; intros st; simpl.
  - now left.
  - intros Hin. destruct (IH _ Hin) as [Hold | Hlater].
    + destruct (serve_table env req st)
        as [Hsame | (k & p & nts & -> & Hn & Hnew)].
      * left. now rewrite <- Hsame.
      * rewrite Hnew in Hold. apply in_app_or in Hold as [Hold | [<- | []]].
        -- now left.
        -- right. exists env, k, p, nts, st. auto.
    + right. destruct Hlater as (env' & k & p & nts & st0 & Hh & Hn & Hrow).
      exists env', k, p, nts, st0. auto.
Qed.

(** C6. Every row of the table, after any history of requests served on
    the empty store, was written by a create request of that history: its
    content is the [compress_content] image of the content the client sent
    (no two adjacent whitespace characters, no leading or trailing
    whitespace) and its timestamp is what the [DateTime] column keeps of
    the timezone-naive datetime that denotes the UTC instant of the
    client's timestamp: a whole second, less than a second away from that
    instant.  Whatever is served afterwards, the rows written so far stay
    in the table as they are. *)
Theorem stored_rows_normalized
        (history later : list (Env * Request)) (row : TrackedFile.t) :
  In row (table (run history empty_store)) ->
  (exists env api_key payload nts,
     In (env, POST_files (Some api_key) payload) history /\
     TrackedFile.fullContent row
       = compress_content (FileCreate.fullContent payload) /\
     normalize_timestamp (FileCreate.timestamp payload) = Ok nts /\
     tzinfo nts = None /\
     ticks nts = utc_ticks (FileCreate.timestamp payload) /\
     TrackedFile.timestamp row = to_column env (ticks nts) /\
     whole_second (TrackedFile.timestamp row) /\
     Z.abs (TrackedFile.timestamp row
            - utc_ticks (FileCreate.timestamp payload)) < 1000000) /\
  adjacent_ws (TrackedFile.fullContent row) = false /\
  leading_ws (TrackedFile.fullContent row) = false /\
  trailing_ws (TrackedFile.fullContent row) = false /\
  exists added,
    table (run (history ++ later) empty_store)
    = table (run history empty_store) ++ added.
Proof.
  intros Hin.
  destruct (run_rows_created history empty_store row Hin)
    as [[] | (env & k & p & nts & st0 & Hh & Hn & ->)].
  destruct (normalize_timestamp_inv _ _ Hn) as [Hz Htk].
  cbn [inserted new_tracked_file TrackedFile.fullContent
       TrackedFile.timestamp TrackedFile.new_fullContent
       TrackedFile.new_timestamp].
  split; [|split; [|split; [|split]]].
  - exists env, k, p, nts.
    split; [exact Hh|]. split; [reflexivity|]. split; [exact Hn|].
    split; [exact Hz|]. split; [exact Htk|]. split; [reflexivity|].
    split; [apply to_column_whole|].
    rewrite <- Htk. pose proof (to_column_near env (ticks nts)). lia.
  - apply strip_no_adjacent, re_sub_ws_no_adjacent.
  - apply strip_leading.
  - apply strip_trailing.
  - rewrite run_app. apply run_table_grows.
Qed.

Lemma stored_rows_normalized_witness :
  (exists env api_key payload nts,
     In (env, POST_files (Some api_key) payload) one_create /\
     TrackedFile.fullContent first_row
       = compress_content (FileCreate.fullContent payload) /\
     normalize_timestamp (FileCreate.timestamp payload) = Ok nts /\
     tzinfo nts = None /\
     ticks nts = utc_ticks (FileCreate.timestamp payload) /\
     TrackedFile.timestamp first_row = to_column env (ticks nts) /\
     whole_second (TrackedFile.timestamp first_row) /\
     Z.abs (TrackedFile.timestamp first_row
            - utc_ticks (FileCreate.timestamp payload)) < 1000000) /\
  adjacent_ws (TrackedFile.fullContent first_row) = false /\
  leading_ws (TrackedFile.fullContent first_row) = false /\
  trailing_ws (TrackedFile.fullContent first_row) = false /\
  exists added,
    table (run (one_create ++ []) empty_store)
    = table (run one_create empty_store) ++ added.
Proof.
  apply (stored_rows_normalized one_create [] first_row).
  vm_compute. left. reflexivity.
Defined.

(* ===================================================================== *)
(** * Duplicates, content and API keys *)
(* ===================================================================== *)



(** A later timestamp within four seconds of the one a client sent is
    within five seconds of what the database keeps of it. *)
Lemma near_sent_near_stored (env : Env) (t1 t2 : Z) :
  Z.abs (t2 - t1) <= timedelta 4 ->
  Z.abs (t2 - to_column env t1) <= timedelta 5.
Proof.
  intros H. pose proof (to_column_near env t1). unfold timedelta in *. lia.
Qed.



(** C10. The lookup does not look at the API key: whenever it finds a
    stored snapshot, the answer is the same for every key.  And there are
    two create calls with different keys, the same file and timestamps four
    seconds apart, such that the second is answered "File snapshot already
    stored" with the snapshot stored under the first key, content
    included, and no row under the second key is in the table. *)
Theorem lookup_ignores_api_key :
  (forall env payload st key1 key2 nts window_start window_end found,
     normalize_timestamp (FileCreate.timestamp payload) = Ok nts ->
     Datetime.sub nts (timedelta 5) = Ok window_start ->
     Datetime.add nts (timedelta 5) = Ok window_end ->
     fault env OpQuery = None ->
     hd_error (select (existing_query (FileCreate.fileName payload)
                                      (FileCreate.filePath payload)
                                      window_start window_end)
                      (table st)) = Some found ->
     create_tracked_file env payload (SessionLocal st) key1
     = create_tracked_file env payload (SessionLocal st) key2) /\
  exists key1 key2 p1 p2 st1 st2 row,
    key1 <> key2 /\
    FileCreate.fileName p2 = FileCreate.fileName p1 /\
    FileCreate.filePath p2 = FileCreate.filePath p1 /\
    Z.abs (utc_ticks (FileCreate.timestamp p2)
           - utc_ticks (FileCreate.timestamp p1)) <= timedelta 5 /\
    compress_content (FileCreate.fullContent p2)
      <> compress_content (FileCreate.fullContent p1) /\
    serve (healthy 1) (POST_files (Some key1) p1) empty_store
      = (st1, Replied (FileResponseEnvelope 201
                         (of_string "File snapshot created")
                         (FileResponse.model_validate row))) /\
    table st1 = [row] /\
    TrackedFile.key row = key1 /\
    TrackedFile.fullContent row
      = compress_content (FileCreate.fullContent p1) /\
    serve (healthy 2) (POST_files (Some key2) p2) st1
      = (st2, Replied (FileResponseEnvelope 200
                         (of_string "File snapshot already stored")
                         (FileResponse.model_validate row))) /\
    table st2 = [row] /\
    Forall (fun r => TrackedFile.key r <> key2) (table st2).
Proof.
  split.
  - intros env payload st key1 key2 nts ws we found Hn Hs Ha HQ Hfound.
    rewrite (create_duplicate env payload st key1 nts Hn ws Hs we Ha HQ
               found Hfound).
    now rewrite (create_duplicate env payload st key2 nts Hn ws Hs we Ha HQ
                   found Hfound).
  - exists (of_string "K1"), (of_string "K2"),
           (a_py "x   y" T0), (a_py "p q" (T0 + timedelta 4)).
    eexists. eexists. exists first_row.
    split; [discriminate|]. split; [reflexivity|]. split; [reflexivity|].
    split; [vm_compute; discriminate|].
    split; [vm_compute; discriminate|].
    split; [vm_compute; reflexivity|]. split; [reflexivity|].
    split; [reflexivity|]. split; [reflexivity|].
    split; [vm_compute; reflexivity|]. split; [reflexivity|].
    repeat constructor. discriminate.
Qed.

(* ===================================================================== *)
(** * Listing snapshots *)
(* ===================================================================== *)

Section NewestFirst.

Context {A : Type} (col : A -> Z).

Lemma insert_desc_last (x : A) (l : list A) :
  Forall (fun y => col x < col y) l -> insert_desc col x l = l ++ [x].
Proof.
  induction 1 as [|y l Hy _ IH]; simpl; [reflexivity|].
  destruct (Z.leb_spec (col y) (col x)); [lia | now rewrite IH].
Qed.

(** When the column grows along the table, the listing is the table
    read backwards. *)
Lemma order_by_desc_rev (l : list A) :
  StronglySorted (fun a b => col a < col b) l ->
  order_by_desc col l = rev l.
Proof.
  induction 1 as [|x l _ IH Hx]; simpl; [reflexivity|].
  rewrite IH. apply insert_desc_last.
  apply Forall_rev. exact Hx.
Qed.

Lemma filter_sorted (R : A -> A -> Prop) (f : A -> bool) (l : list A) :
  StronglySorted R l -> StronglySorted R (filter f l).
Proof.
  induction 1 as [|x l _ IH Hx]; simpl; [constructor|].
  destruct (f x); [|exact IH].
  constructor; [exact IH|].
  rewrite Forall_forall in *. intros y Hy.
  apply filter_In in Hy as [Hy _]. now apply Hx.
Qed.

End NewestFirst.

(** C7, as stated, fails: ordering by [created_at] descending is not the
    insertion order.  [created_at] is stored to the second, so two
    snapshots inserted within the same second have the same [created_at];
    the listing then has them oldest first, not most recently inserted
    first. *)
Lemma list_same_second_not_newest_first :
  let st := run same_second_creates empty_store in
  let K1 := of_string "K1" in
  let listing := serve (healthy (T0 + timedelta 1)) (GET_files (Some K1)) st in
  map TrackedFile.id (table st) = [1; 2] /\
  map TrackedFile.key (table st) = [K1; K1] /\
  map TrackedFile.created_at (table st) = [T0; T0] /\
  (exists message data,
     snd listing = Replied (FileListResponseEnvelope 200 message data) /\
     map FileResponse.id data = [1; 2]) /\
  ~ (forall env st api_key message data,
       snd (serve env (GET_files (Some api_key)) st)
         = Replied (FileListResponseEnvelope 200 message data) ->
       data = map FileResponse.model_validate
                  (rev (filter (fun row => str_eqb (TrackedFile.key row)
                                                   api_key)
                               (table st)))).
Proof.
  intros st K1 listing.
  split; [reflexivity|]. split; [reflexivity|]. split; [reflexivity|].
  split.
  - do 2 eexists. split; [vm_compute; reflexivity | reflexivity].
  - intros H.
    specialize (H (healthy (T0 + timedelta 1)) st K1 _ _ eq_refl).
    vm_compute in H. discriminate H.
Qed.

(** C7, amended.  For every API key and every store that answers the
    query, the list endpoint returns exactly the stored snapshots whose
    [key] equals the given key, ordered by [created_at] descending
    whatever their [timestamp]; this is the reverse of the insertion order
    when the stored creation times strictly grow with the insertions.
    When no snapshot has the key the answer is an empty list with status
    200, not an error. *)
Theorem list_returns_key_rows_newest_first
        (env : Env) (st : Store) (api_key : str) :
  api_key <> [] ->
  fault env OpQuery = None ->
  exists rows,
    serve env (GET_files (Some api_key)) st
      = (received [OpQuery] st,
         Replied (FileListResponseEnvelope 200
                    (str_of_nat (length rows)
                     ++ of_string " file snapshots found")
                    (map FileResponse.model_validate rows))) /\
    Permutation rows
      (filter (fun row => str_eqb (TrackedFile.key row) api_key) (table st)) /\
    (forall row, In row rows <->
                 In row (table st) /\ TrackedFile.key row = api_key) /\
    StronglySorted
      (fun a b => TrackedFile.created_at b <= TrackedFile.created_at a) rows /\
    (StronglySorted
       (fun a b => TrackedFile.created_at a < TrackedFile.created_at b)
       (table st) ->
     rows = rev (filter (fun row => str_eqb (TrackedFile.key row) api_key)
                        (table st))) /\
    ((forall row, In row (table st) -> TrackedFile.key row <> api_key) ->
     rows = []).
Proof.
  intros Hkey HQ.
  set (mine := fun row => str_eqb (TrackedFile.key row) api_key).
  exists (order_by_desc TrackedFile.created_at (filter mine (table st))).
  assert (Hin : forall row,
            In row (order_by_desc TrackedFile.created_at
                                  (filter mine (table st)))
            <-> In row (table st) /\ TrackedFile.key row = api_key).
  { intros row. rewrite order_by_desc_In, filter_In.
    unfold mine. now rewrite str_eqb_eq. }
  split; [|split; [|split; [|split; [|split]]]].
  - cbn [serve].
    assert (Hreq : require_api_key (Some api_key) = Ok api_key)
      by (destruct api_key; [contradiction | reflexivity]).
    rewrite Hreq, (list_tracked_files_ok env api_key st HQ).
    cbn. now rewrite length_map.
  - apply order_by_desc_perm.
  - exact Hin.
  - apply order_by_desc_sorted.
  - intros Hs. apply order_by_desc_rev. now apply filter_sorted.
  - intros Hnone.
    destruct (order_by_desc _ _) as [|row l] eqn:E; [reflexivity|].
    destruct (proj1 (Hin row) (or_introl eq_refl)) as [Hrow Hk].
    now destruct (Hnone row Hrow).
Qed.

Lemma list_returns_key_rows_newest_first_witness :
  exists rows,
    serve (healthy 20) (GET_files (Some (of_string "K1")))
          (mkStore three_rows 4 [])
      = (received [OpQuery] (mkStore three_rows 4 []),
         Replied (FileListResponseEnvelope 200
                    (str_of_nat (length rows)
                     ++ of_string " file snapshots found")
                    (map FileResponse.model_validate rows))) /\
    Permutation rows
      (filter (fun row => str_eqb (TrackedFile.key row) (of_string "K1"))
              (table (mkStore three_rows 4 []))) /\
    (forall row, In row rows <->
                 In row (table (mkStore three_rows 4 [])) /\
                 TrackedFile.key row = of_string "K1") /\
    StronglySorted
      (fun a b => TrackedFile.created_at b <= TrackedFile.created_at a) rows /\
    (StronglySorted
       (fun a b => TrackedFile.created_at a < TrackedFile.created_at b)
       (table (mkStore three_rows 4 [])) ->
     rows = rev (filter (fun row => str_eqb (TrackedFile.key row)
                                            (of_string "K1"))
                        (table (mkStore three_rows 4 [])))) /\
    ((forall row, In row (table (mkStore three_rows 4 [])) ->
                  TrackedFile.key row <> of_string "K1") ->
     rows = []).
Proof.
  apply (list_returns_key_rows_newest_first
           (healthy 20) (mkStore three_rows 4 []) (of_string "K1")).
  - vm_compute. discriminate.
  - reflexivity.
Defined.

(** Rows of one key listed by [created_at], newest first, although the
    client timestamps say otherwise. *)
Example list_orders_by_created_at :
  let old_edit_saved_last :=
    [ TrackedFile.mk 1 (of_string "a.py") (of_string "/tmp/a.py")
        (of_string "K1") (of_string "x") (T0 + timedelta 60) (timedelta 10);
      TrackedFile.mk 2 (of_string "b.py") (of_string "/tmp/b.py")
        (of_string "K1") (of_string "y") T0 (timedelta 11) ] in
  map TrackedFile.id
      (select (mkQuery (fun row => str_eqb (TrackedFile.key row)
                                           (of_string "K1"))
                       TrackedFile.created_at)
              old_edit_saved_last)
  = [2; 1].
Proof. reflexivity. Qed.

(* ===================================================================== *)
(** * Examples *)
(* ===================================================================== *)

(** The examples of the specification. *)
Example compress_content_ex :
  compress_content (of_string "x   y" ++ [10%N; 10%N] ++ of_string "z")
  = of_string "x y z".
Proof. reflexivity. Qed.


(** Two calls for the same file, four seconds apart, on a fresh store. *)
Example create_then_duplicate :
  let K1 := Some (of_string "K1") in
  let (st1, r1) :=
    serve (healthy 1) (POST_files K1 (a_py "x   y" T0)) empty_store in
  let (st2, r2) :=
    serve (healthy 2) (POST_files K1 (a_py "x   y" (T0 + timedelta 4))) st1 in
  reply_status r1 = 201 /\ reply_status r2 = 200 /\
  map TrackedFile.id (table st2) = [1].
Proof. vm_compute. auto. Qed.

(** Two calls for the same file, six seconds apart: two rows. *)
Example create_six_seconds_apart :
  let K1 := Some (of_string "K1") in
  let (st1, r1) :=
    serve (healthy 1) (POST_files K1 (a_py "x" T0)) empty_store in
  let (st2, r2) :=
    serve (healthy 2) (POST_files K1 (a_py "x" (T0 + timedelta 6))) st1 in
  reply_status r1 = 201 /\ reply_status r2 = 201 /\
  map TrackedFile.id (table st2) = [1; 2].
Proof. vm_compute. auto. Qed.

(** Two saves of one file 4.9 s apart, both stored: the first is kept as
    the whole second below it, more than five seconds before the second;
    the two stored timestamps are five seconds apart. *)
Example subsecond_saves_both_stored :
  let st := run subsecond_saves empty_store in
  map TrackedFile.id (table st) = [1; 2] /\
  map TrackedFile.timestamp (table st) = [T0; T0 + timedelta 5].
Proof. vm_compute. auto. Qed.

(** Names are compared character by character, case included. *)
Example file_name_case :
  str_eqb (of_string "A.py") (of_string "a.py") = false.
Proof. reflexivity. Qed.

(** A request without the header. *)
Example list_without_key :
  reply_status (snd (serve (healthy 1) (GET_files None) empty_store)) = 401.
Proof. reflexivity. Qed.

(** A timestamp whose UTC equivalent is not a datetime: the [except]
    clause answers before the store is reached. *)
Example create_year_one :
  serve (healthy 1)
        (POST_files (Some (of_string "K1"))
                    (FileCreate.mk (of_string "a.py") (of_string "/tmp/a.py")
                                   (of_string "x") year_one_plus_one))
        empty_store
  = (empty_store,
     HttpError (mkHTTPException 500
                  (of_string "Failed to save file: date value out of range"))).
Proof. reflexivity. Qed.

(** A failure of [refresh] comes after the COMMIT: the caller is told 500
    and the row is in the table. *)
Example refresh_fault_after_commit :
  let (st1, reply) :=
    serve refresh_fails (POST_files (Some (of_string "K1")) (a_py "x" T0))
          empty_store in
  reply
  = HttpError (mkHTTPException 500
                 (of_string "Failed to save file: Lost connection")) /\
  map TrackedFile.id (table st1) = [1].
Proof. vm_compute. auto. Qed.

(* ===================================================================== *)
(** * Startup: the retry loop *)
(* ===================================================================== *)

Section Startup.

Variable create_all : nat -> result Exception unit.

(** The warnings logged for the failed attempts [first], ..,
    [first + count - 1]. *)
Let warnings (cause : nat -> str) (first count : nat) : list LogRecord :=
  map (fun n => LogWarning n max_attempts (cause n)) (seq first count).

(** [k] attempts in a row that find the database not ready, none of them
    the last one allowed. *)
Lemma startup_loop_not_ready (cause : nat -> str) (k : nat) :
  forall todo attempt b,
    (k <= todo)%nat -> (attempt + k <= max_attempts)%nat ->
    (forall n, (attempt <= n < attempt + k)%nat ->
               create_all n = Raise (OperationalError (cause n))) ->
    startup_loop create_all todo attempt b
    = startup_loop create_all (todo - k) (attempt + k)
        (mkBoot (create_all_calls b + k)
                (slept b + delay_seconds * Z.of_nat k)
                (log b ++ warnings cause attempt k)).
Proof.
  induction k as [|k IH]; intros todo attempt b Htodo Hmax Hfail.
  - rewrite Nat.sub_0_r, !Nat.add_0_r, Z.mul_0_r, Z.add_0_r.
    unfold warnings. cbn. rewrite app_nil_r. now destruct b.
  - destruct todo as [|todo]; [lia|].
    cbn [startup_loop]. rewrite (Hfail attempt) by lia.
    destruct (Nat.eqb_spec attempt max_attempts) as [Heq|_]; [lia|].
    rewrite IH; try lia.
    2:{ intros n Hn. apply Hfail. lia. }
    cbn [create_all_calls slept log Nat.sub].
    replace (S attempt + k)%nat with (attempt + S k)%nat by lia.
    f_equal. f_equal.
    + lia.
    + lia.
    + unfold warnings. cbn [seq map]. now rewrite <- app_assoc.
Qed.

(** X1. When the database is not ready for the first [k - 1] calls to
    [create_all] and answers the [k]-th, with [k] at most 10, [on_startup]
    returns normally after exactly [k] calls and [3 * (k - 1)] seconds of
    sleep, having logged one warning per failed attempt and the success
    message. *)
Theorem on_startup_ready (cause : nat -> str) (k : nat) :
  (1 <= k <= 10)%nat ->
  (forall n, (1 <= n < k)%nat ->
             create_all n = Raise (OperationalError (cause n))) ->
  create_all k = Ok tt ->
  on_startup create_all
  = (mkBoot k (3 * (Z.of_nat k - 1))
            (map (fun n => LogWarning n 10 (cause n)) (seq 1 (k - 1))
             ++ [LogInfo (of_string "Database schema created successfully")]),
     Ok tt).
Proof.
  intros Hk Hfail Hok. unfold on_startup.
  rewrite (startup_loop_not_ready cause (k - 1)); unfold max_attempts in *;
    try lia.
  2:{ intros n Hn. apply Hfail. lia. }
  replace (1 + (k - 1))%nat with k by lia.
  destruct (10 - (k - 1))%nat as [|todo] eqn:E; [lia|].
  cbn [startup_loop create_all_calls slept log]. rewrite Hok.
  cbn [create_all_calls slept log app]. f_equal. f_equal.
  - lia.
  - unfold delay_seconds. lia.
Qed.

(** X2. When the database is not ready for any of the ten calls,
    [on_startup] raises the exception of the tenth call after exactly ten
    calls and 27 seconds of sleep (none after the last attempt), having
    logged ten warnings and the error message. *)
Theorem on_startup_gives_up (cause : nat -> str) :
  (forall n, (1 <= n <= 10)%nat ->
             create_all n = Raise (OperationalError (cause n))) ->
  on_startup create_all
  = (mkBoot 10 27
            (map (fun n => LogWarning n 10 (cause n)) (seq 1 10)
             ++ [LogError
                   (of_string "Could not connect to database after retries")]),
     Raise (OperationalError (cause 10%nat))).
Proof.
  intros Hfail. unfold on_startup.
  rewrite (startup_loop_not_ready cause 9); unfold max_attempts; try lia.
  2:{ intros n Hn. apply Hfail. lia. }
  cbn [Nat.sub Nat.add startup_loop create_all_calls slept log].
  rewrite (Hfail 10%nat) by lia.
  cbn [Nat.eqb create_all_calls slept log]. f_equal. f_equal.
  change (seq 1 10) with (seq 1 9 ++ [10%nat]).
  rewrite map_app, <- !app_assoc. reflexivity.
Qed.

(** X3. An exception of [create_all] that is not an [OperationalError]
    is not retried: it leaves [on_startup] at once, after the warnings of
    the earlier attempts, with no further call and no further sleep. *)
Theorem on_startup_other_exception (cause : nat -> str) (k : nat)
        (exc : Exception) :
  (1 <= k <= 10)%nat ->
  (forall n, (1 <= n < k)%nat ->
             create_all n = Raise (OperationalError (cause n))) ->
  create_all k = Raise exc ->
  (forall msg, exc <> OperationalError msg) ->
  on_startup create_all
  = (mkBoot k (3 * (Z.of_nat k - 1))
            (map (fun n => LogWarning n 10 (cause n)) (seq 1 (k - 1))),
     Raise exc).
Proof.
  intros Hk Hfail Hexc Hother. unfold on_startup.
  rewrite (startup_loop_not_ready cause (k - 1)); unfold max_attempts in *;
    try lia.
  2:{ intros n Hn. apply Hfail. lia. }
  replace (1 + (k - 1))%nat with k by lia.
  destruct (10 - (k - 1))%nat as [|todo] eqn:E; [lia|].
  cbn [startup_loop create_all_calls slept log]. rewrite Hexc.
  destruct exc as [msg|msg|msg];
    try (now destruct (Hother msg));
    cbn [app]; f_equal; f_equal; unfold delay_seconds; lia.
Qed.

(** The loop from attempt [attempt] on, when the last attempt [todo]
    allows is number [max_attempts]. *)
Lemma startup_loop_bounds :
  forall todo attempt b,
    (0 < todo)%nat -> (attempt + todo = S max_attempts)%nat ->
    let (b', r) := startup_loop create_all todo attempt b in
    exists made,
      (1 <= made <= todo)%nat /\
      create_all_calls b' = (create_all_calls b + made)%nat /\
      slept b' = slept b + delay_seconds * (Z.of_nat made - 1) /\
      (forall n, (attempt <= n < attempt + made - 1)%nat ->
                 exists cause, create_all n = Raise (OperationalError cause)) /\
      match r with
      | Ok _ => create_all (attempt + made - 1)%nat = Ok tt
      | Raise exc => create_all (attempt + made - 1)%nat = Raise exc
      end.
Proof.
  induction todo as [|todo IH]; intros attempt b Hpos Hlast; [lia|].
  cbn [startup_loop].
  destruct (create_all attempt) as [[]|exc] eqn:E.
  - exists 1%nat. cbn [create_all_calls slept log].
    replace (attempt + 1 - 1)%nat with attempt by lia.
    repeat split; try lia; exact E.
  - destruct exc as [msg|cause|msg].
    + exists 1%nat. cbn [create_all_calls slept log].
      replace (attempt + 1 - 1)%nat with attempt by lia.
      repeat split; try lia; exact E.
    + destruct (Nat.eqb_spec attempt max_attempts) as [Heq|Hne].
      * exists 1%nat. cbn [create_all_calls slept log].
        replace (attempt + 1 - 1)%nat with attempt by lia.
        repeat split; try lia; exact E.
      * assert (Htodo : (0 < todo)%nat) by lia.
        specialize (IH (S attempt)
                       (mkBoot (S (create_all_calls b))
                               (slept b + delay_seconds)
                               (log b ++ [LogWarning attempt max_attempts
                                                     cause]))
                       Htodo ltac:(lia)).
        destruct (startup_loop create_all todo (S attempt) _) as [b' r].
        destruct IH as (made & Hmade & Hcalls & Hslept & Hbefore & Hlastcall).
        exists (S made). cbn [create_all_calls slept log] in *.
        replace (attempt + S made - 1)%nat with (S attempt + made - 1)%nat
          by lia.
        repeat split; try lia.
        -- intros n Hn. destruct (Nat.eq_dec n attempt) as [->|Hn'].
           ++ now exists cause.
           ++ apply Hbefore. lia.
        -- exact Hlastcall.
    + exists 1%nat. cbn [create_all_calls slept log].
      replace (attempt + 1 - 1)%nat with attempt by lia.
      repeat split; try lia; exact E.
Qed.

(** X4. Whatever the database does, [on_startup] calls [create_all]
    between one and ten times, sleeps three seconds between two calls and
    at no other time (27 seconds at most), goes on only after an
    [OperationalError], and ends with the outcome of its last call: it
    returns normally exactly when that call succeeded. *)
Theorem on_startup_bounds :
  let (b, r) := on_startup create_all in
  (1 <= create_all_calls b <= 10)%nat /\
  slept b = 3 * (Z.of_nat (create_all_calls b) - 1) /\
  0 <= slept b <= 27 /\
  (forall n, (1 <= n < create_all_calls b)%nat ->
             exists cause, create_all n = Raise (OperationalError cause)) /\
  (r = Ok tt <-> create_all (create_all_calls b) = Ok tt) /\
  (forall exc, r = Raise exc <-> create_all (create_all_calls b) = Raise exc).
Proof.
  unfold on_startup.
  pose proof (startup_loop_bounds max_attempts 1 (mkBoot 0 0 [])
                ltac:(unfold max_attempts; lia) eq_refl) as H.
  destruct (startup_loop create_all max_attempts 1 (mkBoot 0 0 []))
    as [b r].
  destruct H as (made & Hmade & Hcalls & Hslept & Hbefore & Hlast).
  cbn [create_all_calls slept] in Hcalls, Hslept.
  unfold max_attempts, delay_seconds in *. rewrite Hcalls.
  replace (1 + made - 1)%nat with made in * by lia.
  cbn [Nat.add]. split; [lia|]. split; [lia|]. split; [lia|].
  split; [intros n Hn; apply Hbefore; lia|].
  destruct r as [[]|exc].
  - split; [tauto|]. intros exc. rewrite Hlast.
    split; discriminate.
  - split.
    + rewrite Hlast. split; discriminate.
    + intros exc'. rewrite Hlast. split; congruence.
Qed.

End Startup.

Lemma on_startup_ready_witness :
  on_startup (ready_at 3)
  = (mkBoot 3 (3 * (Z.of_nat 3 - 1))
            (map (fun n => LogWarning n 10 (of_string "Can't connect"))
                 (seq 1 (3 - 1))
             ++ [LogInfo (of_string "Database schema created successfully")]),
     Ok tt).
Proof.
  apply (on_startup_ready (ready_at 3) (fun _ => of_string "Can't connect") 3).
  - lia.
  - intros n Hn. destruct n as [|[|[|n]]]; try lia; reflexivity.
  - reflexivity.
Defined.

Lemma on_startup_gives_up_witness :
  on_startup never_ready
  = (mkBoot 10 27
            (map (fun n => LogWarning n 10 (of_string "Can't connect"))
                 (seq 1 10)
             ++ [LogError
                   (of_string "Could not connect to database after retries")]),
     Raise (OperationalError (of_string "Can't connect"))).
Proof.
  apply (on_startup_gives_up never_ready (fun _ => of_string "Can't connect")).
  intros n Hn. reflexivity.
Defined.

Lemma on_startup_other_exception_witness :
  on_startup breaks_at_two
  = (mkBoot 2 (3 * (Z.of_nat 2 - 1))
            (map (fun n => LogWarning n 10 (of_string "Can't connect"))
                 (seq 1 (2 - 1))),
     Raise (InvalidRequestError (of_string "no such dialect"))).
Proof.
  apply (on_startup_other_exception breaks_at_two
           (fun _ => of_string "Can't connect") 2).
  - lia.
  - intros n Hn. destruct n as [|[|n]]; try lia; reflexivity.
  - reflexivity.
  - discriminate.
Defined.

(* ===================================================================== *)
(** * More on whitespace compression *)
(* ===================================================================== *)

Section CompressMore.

Lemma visible_chars_blank (p : str) : blank p -> visible_chars p = [].
Proof.
  induction 1 as [|c p Hc _ IH]; [reflexivity|].
  unfold visible_chars in *. simpl. now rewrite Hc.
Qed.

Lemma visible_chars_lstrip (s : str) :
  visible_chars (lstrip s) = visible_chars s.
Proof.
  destruct (lstrip_split s) as (p & Hp & Hblank).
  rewrite Hp at 2. unfold visible_chars. rewrite filter_app.
  fold (visible_chars p). now rewrite (visible_chars_blank p Hblank).
Qed.

Lemma visible_chars_rstrip (s : str) :
  visible_chars (rstrip s) = visible_chars s.
Proof.
  destruct (rstrip_split s) as (q & Hq & Hblank).
  rewrite Hq at 2. unfold visible_chars. rewrite filter_app.
  fold (visible_chars q). rewrite (visible_chars_blank q Hblank).
  now rewrite app_nil_r.
Qed.

Lemma visible_chars_re_sub_ws (s : str) :
  visible_chars (re_sub_ws s) = visible_chars s.
Proof.
  funelim (re_sub_ws s).
  - reflexivity.
  - unfold visible_chars in *. cbn [filter]. rewrite Heq.
    change (negb (isspace space)) with false. cbn [negb].
    rewrite H. apply visible_chars_lstrip.
  - unfold visible_chars in *. cbn [filter]. rewrite Heq. cbn [negb].
    now rewrite H.
Qed.

Lemma lstrip_shorter (s : str) : (length (lstrip s) <= length s)%nat.
Proof.
  destruct (lstrip_split s) as (p & Hp & _).
  rewrite Hp at 2. rewrite length_app. lia.
Qed.

Lemma rstrip_shorter (s : str) : (length (rstrip s) <= length s)%nat.
Proof.
  destruct (rstrip_split s) as (q & Hq & _).
  rewrite Hq at 2. rewrite length_app. lia.
Qed.

Lemma re_sub_ws_shorter (s : str) : (length (re_sub_ws s) <= length s)%nat.
Proof.
  funelim (re_sub_ws s); cbn [length].
  - lia.
  - pose proof (lstrip_shorter rest). lia.
  - lia.
Qed.

(** X5. [compress_content] only touches whitespace: the characters of the
    text that are not whitespace come out unchanged and in the same order,
    and the result is never longer than the text. *)
Theorem compress_content_keeps_visible (raw : str) :
  visible_chars (compress_content raw) = visible_chars raw /\
  (length (compress_content raw) <= length raw)%nat.
Proof.
  unfold compress_content, strip. split.
  - now rewrite visible_chars_rstrip, visible_chars_lstrip,
      visible_chars_re_sub_ws.
  - pose proof (rstrip_shorter (lstrip (re_sub_ws raw))).
    pose proof (lstrip_shorter (re_sub_ws raw)).
    pose proof (re_sub_ws_shorter raw). lia.
Qed.

Lemma visible_chars_nil_blank (s : str) : visible_chars s = [] -> blank s.
Proof.
  induction s as [|c r IH]; [constructor|].
  unfold visible_chars, blank in *. simpl.
  destruct (isspace c) eqn:E; simpl; [|discriminate].
  intros H. constructor; auto.
Qed.

(** X6. The compressed content is empty exactly when the text is empty or
    made of whitespace only. *)
Theorem compress_content_empty_iff_blank (raw : str) :
  compress_content raw = [] <-> blank raw.
Proof.
  split.
  - intros H. apply visible_chars_nil_blank.
    rewrite <- (visible_chars_re_sub_ws raw),
      <- (visible_chars_lstrip (re_sub_ws raw)),
      <- (visible_chars_rstrip (lstrip (re_sub_ws raw))).
    fold (strip (re_sub_ws raw)). fold (compress_content raw).
    now rewrite H.
  - intros Hblank.
    assert (Hv : visible_chars (compress_content raw) = []).
    { unfold compress_content, strip.
      rewrite visible_chars_rstrip, visible_chars_lstrip,
        visible_chars_re_sub_ws.
      now apply visible_chars_blank. }
    pose proof (strip_leading (re_sub_ws raw)) as Hl.
    fold (compress_content raw) in Hl.
    destruct (compress_content raw) as [|c r]; [reflexivity|].
    simpl in Hl. unfold visible_chars in Hv. simpl in Hv.
    rewrite Hl in Hv. discriminate.
Qed.

(** X7. The texts [compress_content] leaves as they are, are exactly
    those in which whitespace only occurs as single spaces between two
    other characters. *)
Theorem compress_content_fixed_points (s : str) :
  compress_content s = s <->
  adjacent_ws s = false /\ only_spaces s /\
  leading_ws s = false /\ trailing_ws s = false.
Proof.
  split.
  - intros H. rewrite <- H. unfold compress_content.
    repeat split.
    + apply strip_no_adjacent, re_sub_ws_no_adjacent.
    + apply strip_only_spaces, re_sub_ws_only_spaces.
    + apply strip_leading.
    + apply strip_trailing.
  - intros (Hadj & Hsp & Hl & Ht). unfold compress_content.
    rewrite (re_sub_ws_fixed _ Hadj Hsp). now apply strip_fixed.
Qed.

(** [split] does not see whitespace at the ends or the length of a run
    of whitespace. *)
Lemma split_from_blank (q cur : str) :
  blank q -> split_from cur q = split_from cur [].
Proof.
  intros H. revert cur. induction H as [|c q Hc _ IH]; intros cur;
    [reflexivity|].
  cbn [split_from]. rewrite Hc.
  destruct cur; rewrite (IH []); reflexivity.
Qed.

Lemma split_from_app_blank (a q cur : str) :
  blank q -> split_from cur (a ++ q) = split_from cur a.
Proof.
  intros H. revert cur. induction a as [|c a IH]; intros cur.
  - now apply split_from_blank.
  - cbn [app split_from]. destruct (isspace c).
    + destruct cur; now rewrite IH.
    + apply IH.
Qed.

Lemma split_from_lstrip (s : str) :
  split_from [] (lstrip s) = split_from [] s.
Proof.
  induction s as [|c r IH]; [reflexivity|].
  cbn [lstrip split_from]. destruct (isspace c) eqn:E; [exact IH|].
  cbn [split_from]. now rewrite E.
Qed.

Lemma split_from_re_sub_ws (s cur : str) :
  split_from cur (re_sub_ws s) = split_from cur s.
Proof.
  revert cur. funelim (re_sub_ws s); intros cur.
  - reflexivity.
  - cbn [split_from]. rewrite Heq.
    change (isspace space) with true. cbv iota.
    rewrite (H []), split_from_lstrip. reflexivity.
  - cbn [split_from]. rewrite Heq. apply H.
Qed.

Lemma split_compress_content (s : str) :
  split (compress_content s) = split s.
Proof.
  unfold split, compress_content, strip.
  destruct (rstrip_split (lstrip (re_sub_ws s))) as (q & Hq & Hblank).
  rewrite <- (split_from_app_blank _ q [] Hblank), <- Hq.
  now rewrite split_from_lstrip, split_from_re_sub_ws.
Qed.

Lemma compress_content_same_words_helper (a b : str) :
  split a = split b -> compress_content a = compress_content b.
Proof. intros H. now rewrite !compress_content_words, H. Qed.

(** X8. Two texts are stored as the same content exactly when they have
    the same words in the same order ([raw.split()]): differences in the
    amount or kind of whitespace are lost, nothing else is. *)
Theorem compress_content_same_words (a b : str) :
  compress_content a = compress_content b <-> split a = split b.
Proof.
  split.
  - intros H. rewrite <- (split_compress_content a),
      <- (split_compress_content b). now rewrite H.
  - apply compress_content_same_words_helper.
Qed.

Lemma split_from_across (a b cur : str) (c : char) :
  isspace c = true ->
  split_from cur (a ++ c :: b) = split_from cur a ++ split_from [] b.
Proof.
  intros Hc. revert cur. induction a as [|x a IH]; intros cur.
  - cbn [app split_from]. rewrite Hc. now destruct cur.
  - cbn [app split_from]. destruct (isspace x).
    + destruct cur; now rewrite IH.
    + apply IH.
Qed.

(** X18. Compression works piece by piece across whitespace: for two
    texts joined by a whitespace character, compressing the whole gives the
    same as compressing each part, joining the results with a space and
    compressing again; the words of the whole are those of the first
    part followed by those of the second. *)
Theorem compress_content_across_whitespace (a b : str) (c : char) :
  isspace c = true ->
  compress_content (a ++ c :: b)
  = compress_content (compress_content a ++ space :: compress_content b) /\
  compress_content (a ++ c :: b) = join [space] (split a ++ split b).
Proof.
  intros Hc.
  assert (Hwords : split (a ++ c :: b) = split a ++ split b)
    by now apply split_from_across.
  split.
  - apply compress_content_same_words_helper.
    unfold split. rewrite (split_from_across _ _ _ space space_isspace).
    fold (split (compress_content a)). fold (split (compress_content b)).
    now rewrite !split_compress_content.
  - now rewrite compress_content_words, Hwords.
Qed.

Lemma compress_content_across_whitespace_witness :
  compress_content (of_string "x  y" ++ 9%N :: of_string " z")
  = compress_content (compress_content (of_string "x  y")
                      ++ space :: compress_content (of_string " z")) /\
  compress_content (of_string "x  y" ++ 9%N :: of_string " z")
  = join [space] (split (of_string "x  y") ++ split (of_string " z")).
Proof.
  apply (compress_content_across_whitespace
           (of_string "x  y") (of_string " z") 9%N).
  reflexivity.
Defined.

End CompressMore.

(* ===================================================================== *)
(** * Timestamps at the ends of the range *)
(* ===================================================================== *)

Lemma add_raise_inv (d : datetime) (delta : Z) (e : Exception) :
  Datetime.add d delta = Raise e ->
  e = date_out_of_range /\ ~ (0 <= ticks d + delta <= MAX_TICKS).
Proof.
  unfold Datetime.add, in_range.
  destruct (Z.leb_spec 0 (ticks d + delta)) as [H1|H1];
    destruct (Z.leb_spec (ticks d + delta) MAX_TICKS) as [H2|H2];
    cbn [andb];
    try discriminate; intros H; injection H as <-; split;
    try reflexivity; lia.
Qed.

Lemma sub_raise_inv (d : datetime) (delta : Z) (e : Exception) :
  Datetime.sub d delta = Raise e ->
  e = date_out_of_range /\ ~ (0 <= ticks d - delta <= MAX_TICKS).
Proof.
  unfold Datetime.sub. intros H. apply add_raise_inv in H as [-> H].
  split; [reflexivity | lia].
Qed.

(** X9. [normalize_timestamp] fails in one way only: it raises
    [OverflowError] ("date value out of range") exactly when the input
    carries an offset and its UTC equivalent is not a representable
    datetime.  A well-formed input at least one day away from both ends of
    the range is always normalized. *)
Theorem normalize_timestamp_raises_iff (t : datetime) :
  (forall e, normalize_timestamp t = Raise e <->
             e = date_out_of_range /\
             exists offset, tzinfo t = Some offset /\
                            ~ (0 <= ticks t - offset <= MAX_TICKS)) /\
  (Datetime.wf t ->
   timedelta 86400 <= ticks t <= MAX_TICKS - timedelta 86400 ->
   normalize_timestamp t = Ok (naive (utc_ticks t))).
Proof.
  split.
  - intros e. unfold normalize_timestamp, astimezone_utc.
    destruct t as [tk [off|]]; cbn [tzinfo ticks].
    + destruct (Datetime.sub _ off) as [u|e'] eqn:E.
      * split; [discriminate|]. intros (_ & off' & Hoff & Hout).
        injection Hoff as <-. apply sub_inv in E as (E1 & _ & E3).
        cbn in E1. lia.
      * apply sub_raise_inv in E as [-> Hout]. cbn in Hout. split.
        -- intros H. injection H as <-. split; [reflexivity|].
           now exists off.
        -- now intros [-> _].
    + split; [discriminate|]. intros (_ & off & Hoff & _). discriminate.
  - intros [Hr Hoff] Hsafe. apply normalize_timestamp_ok.
    unfold utc_ticks. destruct (tzinfo t); lia.
Qed.

Section CreateOutOfRange.

Variables (env : Env) (payload : FileCreate.t) (st : Store) (api_key : str).

Let instant := utc_ticks (FileCreate.timestamp payload).

Lemma create_out_of_range :
  instant < timedelta 5 \/ MAX_TICKS - timedelta 5 < instant ->
  create_tracked_file env payload (SessionLocal st) api_key
  = (SessionLocal st, Raise (failed_to_save date_out_of_range)).
Proof.
  intros Hout.
  destruct (normalize_timestamp (FileCreate.timestamp payload))
    as [nts|e] eqn:Hn.
  - destruct (normalize_timestamp_inv _ _ Hn) as [_ Htk]. fold instant in Htk.
    destruct (Datetime.sub nts (timedelta 5)) as [ws|e] eqn:Hs.
    + destruct (Datetime.add nts (timedelta 5)) as [we|e] eqn:Ha.
      * apply sub_inv in Hs as (Hs & _ & Hs').
        apply add_inv in Ha as (Ha & _ & Ha'). unfold timedelta in *. lia.
      * destruct (add_raise_inv _ _ _ Ha) as [-> _].
        now apply (create_window_end_raises env payload st api_key nts Hn ws).
    + destruct (sub_raise_inv _ _ _ Hs) as [-> _].
      now apply (create_window_start_raises env payload st api_key nts).
  - assert (He : e = date_out_of_range).
    { unfold normalize_timestamp, astimezone_utc in Hn.
      destruct (tzinfo (FileCreate.timestamp payload)) as [off|];
        [|discriminate].
      destruct (Datetime.sub _ off) as [u|e'] eqn:E; [discriminate|].
      injection Hn as <-. now apply sub_raise_inv in E as [-> _]. }
    subst e. now apply create_normalize_raises.
Qed.

End CreateOutOfRange.

Section CreateReachesStore.

Variables (env : Env) (payload : FileCreate.t) (st : Store) (api_key : str).

(** With a representable window the call gets to the store. *)
Lemma create_reaches_store :
  timedelta 5 <= utc_ticks (FileCreate.timestamp payload)
    <= MAX_TICKS - timedelta 5 ->
  exists ops,
    trace (store (fst (create_tracked_file env payload (SessionLocal st)
                                           api_key)))
    = trace st ++ OpQuery :: ops.
Proof.
  intros Hr.
  assert (H5 : 0 <= timedelta 5) by (unfold timedelta; lia).
  pose proof (normalize_timestamp_ok (FileCreate.timestamp payload)
                ltac:(lia)) as Hn.
  destruct (window_ok (naive (utc_ticks (FileCreate.timestamp payload))) Hr)
    as [Hs Ha].
  match type of Hs with _ = Ok ?w => set (ws := w) in * end.
  match type of Ha with _ = Ok ?w => set (we := w) in * end.
  destruct (fault env OpQuery) as [c|] eqn:HQ.
  { rewrite (create_query_fault env payload st api_key _ Hn _ Hs _ Ha c HQ).
    now exists []. }
  destruct (hd_error (select (existing_query (FileCreate.fileName payload)
                                             (FileCreate.filePath payload)
                                             ws we) (table st)))
    as [found|] eqn:Hl.
  { rewrite (create_duplicate env payload st api_key _ Hn _ Hs _ Ha HQ
               found Hl).
    now exists []. }
  destruct (fault env OpInsert) as [c|] eqn:HI.
  { rewrite (create_insert_fault env payload st api_key _ Hn _ Hs _ Ha HQ Hl
               c HI).
    now exists [OpInsert]. }
  destruct (fault env OpCommit) as [c|] eqn:HC.
  { rewrite (create_commit_fault env payload st api_key _ Hn _ Hs _ Ha HQ Hl
               HI c HC).
    now exists [OpInsert; OpCommit]. }
  destruct (fault env OpRefresh) as [c|] eqn:HR.
  { rewrite (create_refresh_fault env payload st api_key _ Hn _ Hs _ Ha HQ Hl
               HI HC c HR).
    now exists [OpInsert; OpCommit; OpRefresh]. }
  destruct (create_committed env payload st api_key _ Hn _ Hs _ Ha HQ Hl
              HI HC HR) as (loaded & _ & Hcall).
  rewrite Hcall. now exists [OpInsert; OpCommit; OpRefresh].
Qed.

End CreateReachesStore.

(** X10. A create request with an API key gets to the store exactly
    when the five-second window around the instant of its timestamp is
    representable.  Within five seconds of either end of the datetime
    range the request is answered 500 with detail "Failed to save file:
    date value out of range", whatever the store holds and whether or not
    it responds, and the store is left untouched. *)
Theorem create_window_out_of_range
        (env : Env) (payload : FileCreate.t) (st : Store)
        (x_api_key : option str) :
  truthy x_api_key = true ->
  let instant := utc_ticks (FileCreate.timestamp payload) in
  (instant < timedelta 5 \/ MAX_TICKS - timedelta 5 < instant ->
   serve env (POST_files x_api_key payload) st
   = (st, HttpError
            (mkHTTPException 500
               (of_string "Failed to save file: date value out of range")))) /\
  (timedelta 5 <= instant <= MAX_TICKS - timedelta 5 ->
   exists ops,
     trace (fst (serve env (POST_files x_api_key payload) st))
     = trace st ++ OpQuery :: ops).
Proof.
  intros Hkey instant.
  assert (Hreq : exists api_key, require_api_key x_api_key = Ok api_key).
  { destruct x_api_key as [[|c k]|]; try discriminate. now eexists. }
  destruct Hreq as [api_key Hreq]. cbn [serve]. rewrite Hreq. split.
  - intros Hout.
    rewrite (create_out_of_range env payload st api_key Hout).
    cbn. now destruct st.
  - intros Hin.
    destruct (create_reaches_store env payload st api_key Hin) as [ops Hops].
    exists ops.
    destruct (create_tracked_file env payload (SessionLocal st) api_key)
      as [db' [r|e]]; exact Hops.
Qed.

Lemma create_window_out_of_range_witness :
  let payload := FileCreate.mk (of_string "a.py") (of_string "/tmp/a.py")
                               (of_string "x") year_one_plus_one in
  let instant := utc_ticks (FileCreate.timestamp payload) in
  (instant < timedelta 5 \/ MAX_TICKS - timedelta 5 < instant ->
   serve commit_fails (POST_files (Some (of_string "K1")) payload) empty_store
   = (empty_store,
      HttpError
        (mkHTTPException 500
           (of_string "Failed to save file: date value out of range")))) /\
  (timedelta 5 <= instant <= MAX_TICKS - timedelta 5 ->
   exists ops,
     trace (fst (serve commit_fails
                       (POST_files (Some (of_string "K1")) payload)
                       empty_store))
     = trace empty_store ++ OpQuery :: ops).
Proof.
  apply (create_window_out_of_range commit_fails
           (FileCreate.mk (of_string "a.py") (of_string "/tmp/a.py")
                          (of_string "x") year_one_plus_one)
           empty_store (Some (of_string "K1"))).
  reflexivity.
Defined.

(* ===================================================================== *)
(** * What one request does to the store *)
(* ===================================================================== *)

(** Either the table is left as it is and the round trips stop before the
    fourth, or all four were made and the table has one more row, which no
    stored row of that file was within the window of. *)
Lemma serve_effect (env : Env) (req : Request) (st : Store) :
  let st' := fst (serve env req st) in
  (exists n,
     (n <= 3)%nat /\
     table st' = table st /\
     trace st' = trace st ++ firstn n create_round_trips /\
     next_id st <= next_id st' <= next_id st + 1 /\
     ((n <= 2)%nat -> next_id st' = next_id st) /\
     match req with
     | POST_files _ _ => True
     | GET_files _ => (n <= 1)%nat
     | GET_health => n = 0%nat
     end) \/
  (exists api_key payload nts window_start window_end,
     req = POST_files (Some api_key) payload /\
     normalize_timestamp (FileCreate.timestamp payload) = Ok nts /\
     Datetime.sub nts (timedelta 5) = Ok window_start /\
     Datetime.add nts (timedelta 5) = Ok window_end /\
     hd_error (select (existing_query (FileCreate.fileName payload)
                                      (FileCreate.filePath payload)
                                      window_start window_end)
                      (table st)) = None /\
     table st'
     = table st ++ [inserted env (new_tracked_file payload api_key nts) st] /\
     next_id st' = next_id st + 1 /\
     trace st' = trace st ++ create_round_trips).
Proof.
  assert (Hnil : forall l : list StoreOp, l = l ++ firstn 0 create_round_trips)
    by (intros l; cbn; now rewrite app_nil_r).
  destruct req as [x_api_key payload | x_api_key |]; cbn [serve].
  - destruct (require_api_key x_api_key) as [api_key|e] eqn:R.
    2:{ left. exists 0%nat. cbn [fst close store SessionLocal].
        repeat split; try lia; auto. }
    apply require_api_key_inv in R as [-> _].
    destruct (create_tracked_file_cases env payload st api_key)
      as [(e & H) | (nts & ws & we & Hn & Hs & Ha & H)].
    { rewrite H. left. exists 0%nat. cbn [fst close store SessionLocal].
      repeat split; try lia; auto. }
    cbv zeta in H.
    destruct H as [(c & _ & H) | [(found & _ & _ & H) |
                  [(c & _ & _ & _ & H) | [(c & _ & _ & _ & _ & H) |
                  [(c & _ & Hl & _ & _ & _ & H) |
                   (loaded & Hl & _ & _ & H)]]]]];
      rewrite H.
    + left. exists 1%nat. cbn. repeat split; try lia; auto.
    + left. exists 1%nat. cbn. repeat split; try lia; auto.
    + left. exists 2%nat. cbn. repeat split; try lia; auto.
    + left. exists 3%nat. cbn. repeat split; try lia; auto.
    + right. exists api_key, payload, nts, ws, we. cbn.
      repeat split; auto.
    + right. exists api_key, payload, nts, ws, we. cbn.
      repeat split; auto.
  - destruct (require_api_key x_api_key) as [api_key|e].
    2:{ left. exists 0%nat. cbn [fst close store SessionLocal].
        repeat split; try lia; auto. }
    left. destruct (fault env OpQuery) as [cause|] eqn:HQ.
    + rewrite (list_tracked_files_fault env api_key st cause HQ).
      exists 1%nat. cbn. repeat split; try lia; auto.
    + rewrite (list_tracked_files_ok env api_key st HQ).
      exists 1%nat. cbn. repeat split; try lia; auto.
  - left. exists 0%nat. cbn [fst]. repeat split; try lia; auto.
Qed.

(** X11. One request inserts at most once.  The INSERTs and COMMITs it
    sends are none, one INSERT, or one INSERT followed by one COMMIT; the
    table changes only after that INSERT and that COMMIT, by one appended
    row; a list request and the health check send no INSERT and no COMMIT,
    and leave the table and the [id] counter as they are. *)
Theorem request_writes_at_most_once
        (env : Env) (req : Request) (st : Store) :
  let st' := fst (serve env req st) in
  exists ops,
    trace st' = trace st ++ ops /\
    (writes ops = [] \/ writes ops = [OpInsert] \/
     writes ops = [OpInsert; OpCommit]) /\
    (table st' = table st \/
     writes ops = [OpInsert; OpCommit] /\
     exists row, table st' = table st ++ [row]) /\
    match req with
    | POST_files _ _ => True
    | GET_files _ | GET_health =>
        writes ops = [] /\ table st' = table st /\ next_id st' = next_id st
    end.
Proof.
  intros st'.
  destruct (serve_effect env req st)
    as [(n & Hn & Ht & Htr & Hid & Hid' & Hget) |
        (k & p & nts & ws & we & -> & _ & _ & _ & _ & Ht & _ & Htr)];
    fold st' in Ht, Htr.
  - exists (firstn n create_round_trips).
    split; [exact Htr|]. fold st' in Hid'.
    assert (Hw : (n <= 1)%nat -> writes (firstn n create_round_trips) = []).
    { intros H1. destruct n as [|[|n]]; [reflexivity | reflexivity | lia]. }
    split; [|split; [now left|]].
    + destruct n as [|[|[|[|n]]]]; cbn; auto; lia.
    + destruct req as [? ? | ? |]; [exact I | |].
      * split; [apply Hw; exact Hget|]. split; [exact Ht | apply Hid'; lia].
      * split; [apply Hw; lia|]. split; [exact Ht | apply Hid'; lia].
  - exists create_round_trips. split; [exact Htr|].
    split; [right; right; reflexivity|].
    split; [|exact I]. right. split; [reflexivity|]. eexists. exact Ht.
Qed.

(* ===================================================================== *)
(** * Invariants of the table *)
(* ===================================================================== *)




Lemma StronglySorted_snoc {A} (R : A -> A -> Prop) (l : list A) (x : A) :
  StronglySorted R l -> Forall (fun a => R a x) l ->
  StronglySorted R (l ++ [x]).
Proof.
  induction 1 as [|a l _ IH Ha]; intros Hx; simpl.
  - repeat constructor.
  - inversion Hx as [|? ? Hax Hlx]; subst.
    constructor; [now apply IH|].
    apply Forall_app. split; [exact Ha | now constructor].
Qed.








Lemma serve_ids_increasing (env : Env) (req : Request) (st : Store) :
  ids_increasing st -> ids_increasing (fst (serve env req st)).
Proof.
  unfold ids_increasing, store_ok. intros [Hok Hs].
  destruct (serve_effect env req st)
    as [(n & _ & Ht & _ & Hid & _) |
        (k & p & nts & ws & we & _ & _ & _ & _ & _ & Ht & Hid & _)];
    rewrite Ht.
  - split; [|exact Hs].
    eapply Forall_impl; [|exact Hok]. cbn. intros r Hr. lia.
  - rewrite Hid. split.
    + apply Forall_app. split.
      * eapply Forall_impl; [|exact Hok]. cbn. intros r Hr. lia.
      * repeat constructor. cbn. lia.
    + apply StronglySorted_snoc; [exact Hs|].
      eapply Forall_impl; [|exact Hok]. cbn. intros r Hr. exact Hr.
Qed.

Lemma run_ids_increasing (history : list (Env * Request)) (st : Store) :
  ids_increasing st -> ids_increasing (run history st).
Proof.
  revert st. induction history as [|[env req] history IH]; intros st H;
    [exact H|].
  simpl. apply IH. now apply serve_ids_increasing.
Qed.

Lemma empty_store_ids_increasing : ids_increasing empty_store.
Proof. split; constructor. Qed.

Lemma sorted_ids_injective (rows : list TrackedFile.t) :
  StronglySorted (fun a b => TrackedFile.id a < TrackedFile.id b) rows ->
  forall a b, In a rows -> In b rows ->
              TrackedFile.id a = TrackedFile.id b -> a = b.
Proof.
  induction 1 as [|x l _ IH Hx]; intros a b Ha Hb Hid; [destruct Ha|].
  rewrite Forall_forall in Hx.
  destruct Ha as [<-|Ha], Hb as [<-|Hb].
  - reflexivity.
  - specialize (Hx b Hb). lia.
  - specialize (Hx a Ha). lia.
  - now apply IH.
Qed.

(** A 201 answer on a store whose [id]s are in order. *)
Lemma serve_created_full (env : Env) (x_api_key : option str)
      (payload : FileCreate.t) (st st1 : Store) (message : str)
      (data : FileResponse.t) :
  store_ok st ->
  serve env (POST_files x_api_key payload) st
  = (st1, Replied (FileResponseEnvelope HTTP_201_CREATED message data)) ->
  exists api_key nts window_start window_end,
    x_api_key = Some api_key /\
    normalize_timestamp (FileCreate.timestamp payload) = Ok nts /\
    Datetime.sub nts (timedelta 5) = Ok window_start /\
    Datetime.add nts (timedelta 5) = Ok window_end /\
    hd_error (select (existing_query (FileCreate.fileName payload)
                                     (FileCreate.filePath payload)
                                     window_start window_end)
                     (table st)) = None /\
    let row := inserted env (new_tracked_file payload api_key nts) st in
    data = FileResponse.model_validate row /\
    message = of_string "File snapshot created" /\
    st1 = mkStore (table st ++ [row]) (next_id st + 1)
                  (trace st ++ create_round_trips).
Proof.
  intros Hok. cbn [serve].
  destruct (require_api_key x_api_key) as [api_key|e] eqn:R; [|discriminate].
  apply require_api_key_inv in R as [-> _].
  destruct (create_tracked_file_cases env payload st api_key)
    as [(e & H) | (nts & ws & we & Hn & Hs & Ha & H)].
  { rewrite H. discriminate. }
  cbv zeta in H.
  destruct H as [(c & _ & H) | [(found & _ & _ & H) |
                [(c & _ & _ & _ & H) | [(c & _ & _ & _ & _ & H) |
                [(c & _ & _ & _ & _ & _ & H) |
                 (loaded & Hl & Hnone & _ & _)]]]]];
    try (rewrite H; cbn; discriminate).
  rewrite (create_created env payload st api_key nts Hn ws Hs we Ha
             (Hnone OpQuery) Hl (Hnone OpInsert) (Hnone OpCommit)
             (Hnone OpRefresh) Hok).
  cbn. intros Heq. injection Heq as <- <- <-.
  exists api_key, nts, ws, we. repeat split; auto.
Qed.

(** X13. On every store reached from the empty one, the snapshot a 201
    answer carries is the row the call appended, and its [id] belongs to
    no other row of the table: ids grow with the insertions. *)
Theorem created_id_identifies_row
        (history : list (Env * Request)) (env : Env)
        (x_api_key : option str) (payload : FileCreate.t) (st1 : Store)
        (message : str) (data : FileResponse.t) :
  serve env (POST_files x_api_key payload) (run history empty_store)
  = (st1, Replied (FileResponseEnvelope 201 message data)) ->
  exists row,
    table st1 = table (run history empty_store) ++ [row] /\
    data = FileResponse.model_validate row /\
    (forall other, In other (table st1) ->
                   TrackedFile.id other = FileResponse.id data ->
                   other = row) /\
    StronglySorted (fun a b => TrackedFile.id a < TrackedFile.id b)
                   (table st1).
Proof.
  intros Hserve.
  pose proof (run_ids_increasing history empty_store
                empty_store_ids_increasing) as Hinv.
  pose proof (serve_ids_increasing env (POST_files x_api_key payload) _ Hinv)
    as [_ Hsorted].
  rewrite Hserve in Hsorted. cbn [fst] in Hsorted.
  destruct (serve_created_full _ _ _ _ _ _ _ (proj1 Hinv) Hserve)
    as (k & nts & ws & we & _ & _ & _ & _ & _ & Hdata & _ & ->).
  eexists. split; [reflexivity|]. split; [exact Hdata|].
  split; [|exact Hsorted].
  intros other Hin Hid. rewrite Hdata in Hid. cbn in Hid.
  apply (sorted_ids_injective _ Hsorted); [exact Hin | | exact Hid].
  cbn. apply in_or_app. right. now left.
Qed.

Lemma created_id_identifies_row_witness :
  let st1 := run two_creates empty_store in
  exists row,
    table st1 = table (run one_create empty_store) ++ [row] /\
    FileResponse.model_validate second_row
    = FileResponse.model_validate row /\
    (forall other, In other (table st1) ->
                   TrackedFile.id other
                   = FileResponse.id (FileResponse.model_validate second_row) ->
                   other = row) /\
    StronglySorted (fun a b => TrackedFile.id a < TrackedFile.id b)
                   (table st1).
Proof.
  apply (created_id_identifies_row one_create (healthy 2)
           (Some (of_string "K1")) (a_py "y" (T0 + timedelta 6))
           (run two_creates empty_store)
           (of_string "File snapshot created")
           (FileResponse.model_validate second_row)).
  vm_compute. reflexivity.
Defined.

(* ===================================================================== *)
(** * Create, list, create again *)
(* ===================================================================== *)






(** X16. A failure of the store while listing is not turned into an
    [HTTPException]: the exception leaves the endpoint as it is (the
    framework answers 500) and the table and the [id] counter are as
    before. *)
Theorem list_fault_not_handled
        (env : Env) (st : Store) (api_key cause : str) :
  api_key <> [] ->
  fault env OpQuery = Some cause ->
  serve env (GET_files (Some api_key)) st
  = (received [OpQuery] st, ServerError (OperationalError cause)) /\
  reply_status (ServerError (OperationalError cause)) = 500 /\
  table (received [OpQuery] st) = table st /\
  next_id (received [OpQuery] st) = next_id st.
Proof.
  intros Hkey HQ. cbn [serve].
  assert (Hreq : require_api_key (Some api_key) = Ok api_key)
    by (destruct api_key; [contradiction | reflexivity]).
  rewrite Hreq, (list_tracked_files_fault env api_key st cause HQ).
  repeat split.
Qed.

Lemma list_fault_not_handled_witness :
  serve query_fails (GET_files (Some (of_string "K1"))) empty_store
  = (received [OpQuery] empty_store,
     ServerError (OperationalError (of_string "Lost connection"))) /\
  reply_status (ServerError (OperationalError (of_string "Lost connection")))
  = 500 /\
  table (received [OpQuery] empty_store) = table empty_store /\
  next_id (received [OpQuery] empty_store) = next_id empty_store.
Proof.
  apply (list_fault_not_handled query_fails empty_store (of_string "K1")
           (of_string "Lost connection")).
  - vm_compute. discriminate.
  - reflexivity.
Defined.



